(** * Constrained Douglas-Peucker simplification (simplify_algorithm.py)

    A shallow embedding of the simplification engine of
    [simplify_algorithm.py] (class [Simplify]) and the properties the
    design document states about it.

    The geometry primitives (QGIS / GEOS calls), the spatial index
    [GsCollection] and the feedback object are external collaborators of the
    engine: they are gathered in the record [GeoEnv] and every theorem is
    stated for an arbitrary environment.  Floating point numbers are
    represented by rationals. *)

From Stdlib Require Import ZArith QArith Qabs Lia.
From stdpp Require Import base option list.

Local Open Scope Z_scope.

(** ** Outcomes of Python code *)

(** The exceptions the modelled code can raise.  [ReferenceLost] is the
    only outcome without a Python counterpart: geometries are addressed by
    their position in [rb_geoms], and [ReferenceLost] is the outcome of
    addressing a position that holds no geometry. *)
Inductive PyExc := IndexError | ValueError | ReferenceLost.

(** [OutOfFuel]: the iteration budget of a [while] loop was exhausted. *)
Inductive Res (A : Type) : Type :=
| Ok (a : A)
| Raise (e : PyExc)
| OutOfFuel.
Arguments Ok {A} a.
Arguments Raise {A} e.
Arguments OutOfFuel {A}.

Definition res_bind {A B : Type} (c : Res A) (k : A -> Res B) : Res B :=
  match c with
  | Ok a => k a
  | Raise e => Raise e
  | OutOfFuel => OutOfFuel
  end.

Notation "'do' x <- c ; k" := (res_bind c (fun x => k))
  (at level 10, x pattern, c at level 100, k at level 200).

(** A list comprehension whose element expression may raise. *)
Fixpoint res_mapM {A B : Type} (f : A -> Res B) (l : list A) : Res (list B) :=
  match l with
  | [] => Ok []
  | x :: xs => do y <- f x; do ys <- res_mapM f xs; Ok (y :: ys)
  end.

(** ** Python lists *)

(** [l[i]]: negative indices count from the end, out of range raises. *)
Definition py_getitem {A : Type} (l : list A) (i : Z) : Res A :=
  let n := Z.of_nat (length l) in
  let j := if i <? 0 then i + n else i in
  if (0 <=? j) && (j <? n) then
    match l !! Z.to_nat j with
    | Some x => Ok x
    | None => Raise IndexError
    end
  else Raise IndexError.

(** [range(a, b)] *)
Definition py_range (a b : Z) : list Z := seqZ a (b - a).

Definition Qlt_bool (a b : Q) : bool := negb (Qle_bool b a).

(** [max(l)]: the running maximum is replaced only by a strictly greater
    item; an empty argument raises [ValueError]. *)
Definition run_max (m : Q) (ds : list Q) : Q :=
  fold_left (fun m x => if Qlt_bool m x then x else m) ds m.

Definition py_max (l : list Q) : Res Q :=
  match l with
  | [] => Raise ValueError
  | d :: ds => Ok (run_max d ds)
  end.

(** [l.index(v)]: position of the first item equal to [v]. *)
Fixpoint py_index (v : Q) (l : list Q) : Res Z :=
  match l with
  | [] => Raise ValueError
  | d :: ds => if Qeq_bool d v then Ok 0 else do i <- py_index v ds; Ok (1 + i)
  end.

(** ** Data model *)

(** A [QgsPoint]; [PointEmpty] is the empty point [QgsPoint()] that
    [QgsGeometry.vertexAt] returns for a vertex number out of range. *)
Inductive QgsPoint :=
| PointXY (x y : Q)
| PointEmpty.

(** A line string is its sequence of vertices. *)
Definition QgsLineString := list QgsPoint.

(** The geometry to simplify ([RbGeom] of geo_sim_util): identifier, line
    string and the [is_simplest] flag. *)
Record RbGeom := {
  id : nat;
  qgs_geom : QgsLineString;
  is_simplest : bool
}.

(** [RbResults] *)
Record RbResults := {
  in_nbr_features : option Z;
  out_nbr_features : option Z;
  nbr_vertice_deleted : Z;
  qgs_features_out : option (list (list QgsLineString));
  nbr_pass : Z;
  is_structure_valid : option bool
}.

(** [RbResults.__init__] *)
Definition RbResults_init : RbResults :=
  {| in_nbr_features := None;
     out_nbr_features := None;
     nbr_vertice_deleted := 0;
     qgs_features_out := None;
     nbr_pass := 0;
     is_structure_valid := None |}.

(** What the run does, in the order it does it: the messages pushed to the
    feedback object, the text printed, the calls to the geometry engine and
    to the spatial index with the answer received, and the calls of
    [process_line] and of [validate_constraints]. *)
Inductive Event :=
| InfoIteration (n : Z)            (* pushInfo("Iteration: n") *)
| InfoVerticeDeleted (n : Z)       (* pushInfo("Vertice deleted: n") *)
| InfoNonSimple (p : QgsPoint)     (* pushInfo("Possibly non OGC simple feature at x,y ...") *)
| PrintPolygonizeNotValid          (* print("polygonize not valid") *)
| CallGetSegmentIntersect (gid : nat) (first last : Z)
| CallValidateSimplicity (r : bool)
| CallValidateIntersection (r : bool)
| CallPolygonize (simple : bool)
| CallValidateSidedness (r : bool)
| CallProcessLine (k : nat)
| CallValidateConstraints (k : nat) (first last : Z) (r : bool)
| CallDeleteVertex (gid : nat) (lb ub : Z)
| CallValidateIntegrity (r : bool).

(** The external collaborators.  The spatial index is queried with the
    current vertex sequences of all geometries (its contents), the
    identifier of the geometry and the sub line. *)
Record GeoEnv := {
  (* QgsLineString.isClosed: do start and end point coincide *)
  same_location : QgsPoint -> QgsPoint -> bool;
  (* createGeometryEngine(QgsLineString(a, b)).distance(p) *)
  distance : QgsPoint -> QgsPoint -> QgsPoint -> Q;
  (* QgsGeometry.length *)
  geom_length : QgsLineString -> Q;
  (* Epsilon.ZERO_RELATIVE *)
  ZERO_RELATIVE : Q;
  (* GsCollection.get_segment_intersect: (with itself, with others) *)
  get_segment_intersect :
    list (nat * QgsLineString) -> nat -> QgsLineString ->
    list QgsLineString * list QgsLineString;
  (* GeoSimUtil.validate_simplicity / validate_intersection *)
  validate_simplicity : list QgsLineString -> QgsLineString -> bool;
  validate_intersection : list QgsLineString -> QgsLineString -> bool;
  (* polygonize([unaryUnion([closed line])]).isSimple() *)
  polygonize_isSimple : QgsLineString -> bool;
  (* GeoSimUtil.validate_sidedness on the polygonized closed line *)
  validate_sidedness : list QgsLineString -> QgsLineString -> bool;
  (* GsCollection.validate_integrity *)
  validate_integrity : list (nat * QgsLineString) -> bool;
  (* feedback.isCanceled(), as a function of the number of earlier polls *)
  isCanceled : nat -> bool
}.

(** The mutable state of a run: the geometries (objects addressed by
    position), the statistics, the events so far (oldest first) and the
    number of cancellation polls made. *)
Record World := {
  rb_geoms : list RbGeom;
  rb_results : RbResults;
  trace : list Event;
  polls : nat
}.

Definition log (e : Event) (w : World) : World :=
  {| rb_geoms := rb_geoms w;
     rb_results := rb_results w;
     trace := trace w ++ [e];
     polls := polls w |}.

Definition set_geoms (gs : list RbGeom) (w : World) : World :=
  {| rb_geoms := gs;
     rb_results := rb_results w;
     trace := trace w;
     polls := polls w |}.

Definition set_results (r : RbResults) (w : World) : World :=
  {| rb_geoms := rb_geoms w;
     rb_results := r;
     trace := trace w;
     polls := polls w |}.

Definition get_geom (w : World) (k : nat) : Res RbGeom :=
  match rb_geoms w !! k with
  | Some g => Ok g
  | None => Raise ReferenceLost
  end.

(** [sim_geom.is_simplest = b] *)
Definition set_is_simplest (k : nat) (b : bool) (w : World) : World :=
  match rb_geoms w !! k with
  | Some g =>
      set_geoms (<[k := {| id := id g; qgs_geom := qgs_geom g; is_simplest := b |}]> (rb_geoms w)) w
  | None => w
  end.

(** Modelled from the spec: the contents of the spatial index
    ([GsCollection] of geo_sim_util, not part of the sources at hand), which
    always reflect the current vertex sequence of every geometry. *)
Definition index_state (w : World) : list (nat * QgsLineString) :=
  (fun g => (id g, qgs_geom g)) <$> rb_geoms w.

(** [QgsLineString.isClosed] *)
Definition isClosed (E : GeoEnv) (ls : QgsLineString) : bool :=
  match head ls, last ls with
  | Some a, Some b => same_location E a b
  | _, _ => false
  end.

(** [QgsGeometry.vertexAt] *)
Definition vertexAt (ls : QgsLineString) (i : Z) : QgsPoint :=
  if i <? 0 then PointEmpty else default PointEmpty (ls !! Z.to_nat i).

(** Modelled from the spec: the removal of the vertices numbered [lb] to
    [ub] from a vertex sequence, as [GsCollection.delete_vertex] of
    geo_sim_util (not part of the sources at hand) does it. *)
Definition remove_vertices (ls : QgsLineString) (lb ub : Z) : QgsLineString :=
  if lb <=? ub then take (Z.to_nat lb) ls ++ drop (Z.to_nat (ub + 1)) ls else ls.

(** Modelled from the spec: [GsCollection.delete_vertex(sim_geom, lb, ub)]
    of geo_sim_util, not part of the sources at hand.  It removes the
    vertices numbered [lb] to [ub] from the live vertex sequence of the
    geometry; the spatial index is a function of the live sequences
    ([index_state]) and follows. *)
Definition delete_vertex (k : nat) (lb ub : Z) (w : World) : Res World :=
  do g <- get_geom w k;
  let g' := {| id := id g; qgs_geom := remove_vertices (qgs_geom g) lb ub;
               is_simplest := is_simplest g |} in
  Ok (log (CallDeleteVertex (id g) lb ub) (set_geoms (<[k := g']> (rb_geoms w)) w)).

(** ** The algorithm *)

Section Simplify.

Variable E : GeoEnv.
(** [self.tolerance] *)
Variable tolerance : Q.

(** [Simplify.find_farthest_point] *)
Definition find_farthest_point (qgs_points : QgsLineString) (first last : Z)
  : Res (Z * Q) :=
  if 2 <=? last - first then
    do a <- py_getitem qgs_points first;
    do b <- py_getitem qgs_points last;
    do distances <-
       res_mapM (fun i => do p <- py_getitem qgs_points i; Ok (distance E a b p))
                (py_range (first + 1) last);
    do farthest_dist <- py_max distances;
    do ix <- py_index farthest_dist distances;
    Ok (ix + first + 1, farthest_dist)
  else
    (* Not enough vertice to calculate the farthest distance *)
    Ok (first, 0%Q).

(** [Simplify.validate_constraints] *)
Definition validate_constraints (w : World) (k : nat) (first last : Z)
  : Res (bool * World) :=
  do sim_geom <- get_geom w k;
  let qgs_line_string := qgs_geom sim_geom in
  let num_points := Z.of_nat (length qgs_line_string) in
  if isClosed E qgs_line_string && (num_points - (last - first - 1) <=? 3) then
    (* Not enough point remaining to simplify the line *)
    Ok (false, w)
  else
    let qgs_points := vertexAt qgs_line_string <$> py_range first (last + 1) in
    do p0 <- py_getitem qgs_points 0;
    do pn <- py_getitem qgs_points (-1);
    let qgs_geom_new_subline := [p0; pn] in
    let qgs_geom_old_subline := qgs_points in
    let '(qgs_geoms_with_itself, qgs_geoms_with_others) :=
      get_segment_intersect E (index_state w) (id sim_geom) qgs_geom_old_subline in
    let w := log (CallGetSegmentIntersect (id sim_geom) first last) w in
    (* First: simplicity *)
    let '(constraints_valid, w) :=
      if Qle_bool (ZERO_RELATIVE E) (geom_length E qgs_geom_new_subline) then
        let r := validate_simplicity E qgs_geoms_with_itself qgs_geom_new_subline in
        (r, log (CallValidateSimplicity r) w)
      else
        (true, log (InfoNonSimple p0) w) in
    (* Second: intersection with the other lines *)
    let '(constraints_valid, w) :=
      if constraints_valid && (1 <=? Z.of_nat (length qgs_geoms_with_others)) then
        let r := validate_intersection E qgs_geoms_with_others qgs_geom_new_subline in
        (r, log (CallValidateIntersection r) w)
      else (constraints_valid, w) in
    (* Third: sidedness *)
    let '(constraints_valid, w) :=
      if constraints_valid && (1 <=? Z.of_nat (length qgs_geoms_with_others)) then
        let qgs_ls_old_subline := qgs_points ++ [p0] in
        let simple := polygonize_isSimple E qgs_ls_old_subline in
        let w := log (CallPolygonize simple) w in
        if simple then
          let r := validate_sidedness E qgs_geoms_with_others qgs_ls_old_subline in
          (r, log (CallValidateSidedness r) w)
        else
          (false, log PrintPolygonizeNotValid w)
      else (constraints_valid, w) in
    Ok (constraints_valid, w).

(** The state of the [while stack:] loop of [process_line].  The Python
    list [stack] is kept with its last item first: the head is the top. *)
Record LoopState := {
  stack : list (Z * Z);
  world : World;
  deleted : Z    (* the local nbr_vertice_deleted *)
}.

Section ProcessLine.

(** The geometry processed and the copy of its vertices taken on entry
    ([qgs_points = qgs_line_string.points()]). *)
Variable k : nat.
Variable qgs_points : QgsLineString.

(** One iteration of the body of [while stack:], for the popped span. *)
Definition loop_body (first last : Z) (rest : list (Z * Z)) (w : World) (n : Z)
  : Res LoopState :=
  if first + 1 <? last then
    do (farthest_index, farthest_dist) <- find_farthest_point qgs_points first last;
    if Qle_bool farthest_dist tolerance then
      do (ok, w) <- validate_constraints w k first last;
      let w := log (CallValidateConstraints k first last ok) w in
      if ok then
        do w <- delete_vertex k (first + 1) (last - 1) w;
        Ok {| stack := rest; world := w; deleted := n + (last - first - 1) |}
      else
        let w := set_is_simplest k false w in
        do (farthest_index, farthest_dist) <- find_farthest_point qgs_points first last;
        if Qle_bool farthest_dist tolerance then
          Ok {| stack := (farthest_index, last) :: (first, farthest_index) :: rest;
                world := w; deleted := n |}
        else
          Ok {| stack := rest; world := w; deleted := n |}
    else
      Ok {| stack := (farthest_index, last) :: (first, farthest_index) :: rest;
            world := w; deleted := n |}
  else
    Ok {| stack := rest; world := w; deleted := n |}.

(** One step of the loop; [None] when the stack is empty. *)
Definition loop_step (st : LoopState) : option (Res LoopState) :=
  match stack st with
  | [] => None
  | (first, last) :: rest => Some (loop_body first last rest (world st) (deleted st))
  end.

(** [while stack: ...] *)
Fixpoint while_stack (fuel : nat) (st : LoopState) : Res LoopState :=
  match loop_step st with
  | None => Ok st
  | Some r =>
      match fuel with
      | O => OutOfFuel
      | S fuel' => do st' <- r; while_stack fuel' st'
      end
  end.

End ProcessLine.

(** The initial stack of [process_line]. *)
Definition init_stack (qgs_points : QgsLineString) : list (Z * Z) :=
  let num_points := Z.of_nat (length qgs_points) in
  let last := num_points - 1 in
  if isClosed E qgs_points then
    if 5 <=? num_points then
      let mid_index := num_points / 2 in
      [(mid_index, num_points - 1); (0, mid_index)]
    else []
  else [(0, last)].

(** [Simplify.process_line]; returns the number of vertices deleted. *)
Definition process_line (fuel : nat) (w : World) (k : nat) : Res (Z * World) :=
  do sim_geom <- get_geom w k;
  let w := set_is_simplest k true w in
  let qgs_points := qgs_geom sim_geom in
  do st <- while_stack k qgs_points fuel
             {| stack := init_stack qgs_points; world := w; deleted := 0 |};
  Ok (deleted st, world st).

(** The [for i, rb_geom in enumerate(self.rb_geoms)] loop of one pass. *)
Fixpoint for_geoms (fuel : nat) (ks : list nat) (w : World) (n : Z) : Res (Z * World) :=
  match ks with
  | [] => Ok (n, w)
  | k :: ks' =>
      let canceled := isCanceled E (polls w) in
      let w := {| rb_geoms := rb_geoms w; rb_results := rb_results w;
                  trace := trace w; polls := S (polls w) |} in
      if canceled then Ok (n, w)
      else
        do rb_geom <- get_geom w k;
        if negb (is_simplest rb_geom) then
          do (d, w) <- process_line fuel (log (CallProcessLine k) w) k;
          for_geoms fuel ks' w (n + d)
        else for_geoms fuel ks' w n
  end.

Definition add_pass (r : RbResults) : RbResults :=
  {| in_nbr_features := in_nbr_features r;
     out_nbr_features := out_nbr_features r;
     nbr_vertice_deleted := nbr_vertice_deleted r;
     qgs_features_out := qgs_features_out r;
     nbr_pass := nbr_pass r + 1;
     is_structure_valid := is_structure_valid r |}.

Definition add_deleted (d : Z) (r : RbResults) : RbResults :=
  {| in_nbr_features := in_nbr_features r;
     out_nbr_features := out_nbr_features r;
     nbr_vertice_deleted := nbr_vertice_deleted r + d;
     qgs_features_out := qgs_features_out r;
     nbr_pass := nbr_pass r;
     is_structure_valid := is_structure_valid r |}.

(** The [while True:] loop of [_simplify_lines]; [passes] bounds the number
    of passes, [fuel] the iterations of each [while stack:] loop.  The
    progress bar updates are left out. *)
Fixpoint simplify_passes (fuel passes : nat) (w : World) : Res World :=
  match passes with
  | O => OutOfFuel
  | S passes' =>
      let w := set_results (add_pass (rb_results w)) w in
      let w := log (InfoIteration (nbr_pass (rb_results w))) w in
      do (nbr, w) <- for_geoms fuel (seq 0 (length (rb_geoms w))) w 0;
      let w := log (InfoVerticeDeleted nbr) w in
      if nbr =? 0 then Ok w
      else simplify_passes fuel passes' (set_results (add_deleted nbr (rb_results w)) w)
  end.

(** [Simplify._simplify_lines] *)
Definition _simplify_lines (fuel : nat) (w : World) : Res World :=
  simplify_passes fuel fuel w.

(** The truth value of an attribute holding [None], [True] or [False]. *)
Definition py_truthy (o : option bool) : bool :=
  match o with
  | Some true => true
  | _ => false
  end.

(** Modelled from the spec: [GeoSimUtil.create_gs_feature] and
    [get_qgs_feature] (the output records are reconstructed from the
    surviving geometries of their owners): the geometries of the flat list,
    given back to the features owning them. *)
Fixpoint regroup {A : Type} (sizes : list nat) (l : list A) : list (list A) :=
  match sizes with
  | [] => []
  | n :: ns => take n l :: regroup ns (drop n l)
  end.

(** [Simplify.reduce].  A feature is given by the geometries it owns (the
    result of [get_rb_geom]); the output features are read back from the
    same geometries.  [validate_structure] is the attribute stored by the
    constructor.  The profiler calls are left out. *)
Definition reduce (validate_structure : bool) (fuel : nat)
    (gs_features : list (list RbGeom)) : Res World :=
  let results0 :=
    {| in_nbr_features := Some (Z.of_nat (length gs_features));
       out_nbr_features := out_nbr_features RbResults_init;
       nbr_vertice_deleted := nbr_vertice_deleted RbResults_init;
       qgs_features_out := qgs_features_out RbResults_init;
       nbr_pass := nbr_pass RbResults_init;
       is_structure_valid := is_structure_valid RbResults_init |} in
  let w := {| rb_geoms := concat gs_features; rb_results := results0;
              trace := []; polls := 0 |} in
  do w <- _simplify_lines fuel w;
  let features_out := regroup (length <$> gs_features) (qgs_geom <$> rb_geoms w) in
  let r := rb_results w in
  let r := {| in_nbr_features := in_nbr_features r;
              out_nbr_features := Some (Z.of_nat (length features_out));
              nbr_vertice_deleted := nbr_vertice_deleted r;
              qgs_features_out := Some features_out;
              nbr_pass := nbr_pass r;
              is_structure_valid := is_structure_valid r |} in
  let w := set_results r w in
  (* Validate inner spatial structure. For debug purpose only *)
  if py_truthy (is_structure_valid (rb_results w)) then
    Ok (log (CallValidateIntegrity (validate_integrity E (index_state w))) w)
  else Ok w.

(** [Simplify.douglas_peucker]: builds the [Simplify] object and returns what
    [reduce] returns. *)
Definition douglas_peucker (validate_structure : bool) (fuel : nat)
    (qgs_in_features : list (list RbGeom)) : Res World :=
  reduce validate_structure fuel qgs_in_features.

End Simplify.

(** ** A concrete environment for the examples

    Exact on the configurations the examples use: chords that are
    horizontal or reduced to a point at the height of their first end, with
    the measured points projecting onto them, and axis-parallel two-point
    lines.  No other geometry is near (the index returns no segment), the
    simplicity, intersection and sidedness tests pass, and the
    polygonization of a closed line noded at its overlaps is simple. *)

Definition Qabs_diff (a b : Q) : Q := Qabs (a - b).

Definition axis_distance (a b p : QgsPoint) : Q :=
  match a, p with
  | PointXY _ ya, PointXY _ yp => Qabs_diff yp ya
  | _, _ => 0%Q
  end.

Definition axis_length (ls : QgsLineString) : Q :=
  match ls with
  | [PointXY xa ya; PointXY xb yb] => (Qabs_diff xb xa + Qabs_diff yb ya)%Q
  | _ => 0%Q
  end.

Definition point_eqb (p q : QgsPoint) : bool :=
  match p, q with
  | PointXY x y, PointXY x' y' => Qeq_bool x x' && Qeq_bool y y'
  | PointEmpty, PointEmpty => true
  | _, _ => false
  end.

Definition axis_env : GeoEnv :=
  {| same_location := point_eqb;
     distance := axis_distance;
     geom_length := axis_length;
     ZERO_RELATIVE := (1 # 1000000)%Q;
     get_segment_intersect := fun _ _ _ => ([], []);
     validate_simplicity := fun _ _ => true;
     validate_intersection := fun _ _ => true;
     polygonize_isSimple := fun _ => true;
     validate_sidedness := fun _ _ => true;
     validate_integrity := fun _ => true;
     isCanceled := fun _ => false |}.

Definition pt (x y : Z) : QgsPoint := PointXY (inject_Z x) (inject_Z y).

Definition mk_geom (i : nat) (ls : QgsLineString) : RbGeom :=
  {| id := i; qgs_geom := ls; is_simplest := false |}.

Definition mk_world (gs : list RbGeom) : World :=
  {| rb_geoms := gs; rb_results := RbResults_init; trace := []; polls := 0 |}.

(** ** Notions used to state the properties *)

(** The world with further events logged. *)
Definition add_events (evs : list Event) (w : World) : World :=
  {| rb_geoms := rb_geoms w;
     rb_results := rb_results w;
     trace := trace w ++ evs;
     polls := polls w |}.

(** The live vertex sequence of the geometry at position [k]. *)
Definition live (w : World) (k : nat) : QgsLineString :=
  default [] (qgs_geom <$> rb_geoms w !! k).

(** The distance of vertex [i] from the chord of the span. *)
Definition chord_dist (E : GeoEnv) (pts : QgsLineString) (first last i : Z) : Q :=
  distance E (vertexAt pts first) (vertexAt pts last) (vertexAt pts i).

(** The three topological tests of the validator. *)
Inductive Check := Simplicity | Intersection | Sidedness.

(** The verdict an event carries, if it is the verdict of a test.  A
    polygonization that is not simple is the failure of the sidedness
    test; a simple one is followed by the call that gives the verdict. *)
Definition verdict_of (e : Event) : option (Check * bool) :=
  match e with
  | CallValidateSimplicity r => Some (Simplicity, r)
  | CallValidateIntersection r => Some (Intersection, r)
  | CallPolygonize false => Some (Sidedness, false)
  | CallValidateSidedness r => Some (Sidedness, r)
  | _ => None
  end.

Definition verdicts (evs : list Event) : list (Check * bool) := omap verdict_of evs.

(** Running tests in order and stopping at the first that fails. *)
Fixpoint short_circuit (l : list (Check * bool)) : list (Check * bool) :=
  match l with
  | [] => []
  | (c, b) :: t => (c, b) :: (if b then short_circuit t else [])
  end.

(** The sub line of a span, the chord replacing it and the sub line closed
    with its start point. *)
Definition subline (ls : QgsLineString) (first last : Z) : QgsLineString :=
  vertexAt ls <$> py_range first (last + 1).

Definition chord (ls : QgsLineString) (first last : Z) : QgsLineString :=
  [vertexAt ls first; vertexAt ls last].

Definition closed_subline (ls : QgsLineString) (first last : Z) : QgsLineString :=
  subline ls first last ++ [vertexAt ls first].

(** The degeneracy guard of the validator. *)
Definition degenerate (E : GeoEnv) (ls : QgsLineString) (first last : Z) : bool :=
  isClosed E ls && (Z.of_nat (length ls) - (last - first - 1) <=? 3).

(** The chord is shorter than the relative zero. *)
Definition short_chord (E : GeoEnv) (ls : QgsLineString) (first last : Z) : bool :=
  negb (Qle_bool (ZERO_RELATIVE E) (geom_length E (chord ls first last))).

(** The segments the spatial index returns for the sub line of a span. *)
Definition segments_near (E : GeoEnv) (w : World) (g : RbGeom) (first last : Z)
  : list QgsLineString * list QgsLineString :=
  get_segment_intersect E (index_state w) (id g) (subline (qgs_geom g) first last).

(** The tests that apply to a span, in the order of the design, with the
    verdict of each. *)
Definition applicable_checks (E : GeoEnv) (w : World) (g : RbGeom) (first last : Z)
  : list (Check * bool) :=
  let ls := qgs_geom g in
  let '(itself, others) := segments_near E w g first last in
  (if short_chord E ls first last then []
   else [(Simplicity, validate_simplicity E itself (chord ls first last))])
  ++
  (match others with
   | [] => []
   | _ :: _ =>
       [(Intersection, validate_intersection E others (chord ls first last));
        (Sidedness, polygonize_isSimple E (closed_subline ls first last)
                    && validate_sidedness E others (closed_subline ls first last))]
   end).

(** A bound on the iterations the [while stack:] loop still makes. *)
Definition span_weight (s : Z * Z) : nat :=
  Z.to_nat (Z.max 1 (2 * (snd s - fst s) - 1)).

Fixpoint stack_weight (st : list (Z * Z)) : nat :=
  match st with
  | [] => 0
  | s :: below => span_weight s + stack_weight below
  end.

(** The spans of a stack (top first) lie left to right from bottom to top,
    at or below vertex number [ub]: each span ends where or before the span
    above it begins. *)
Fixpoint chain (ub : Z) (st : list (Z * Z)) : Prop :=
  match st with
  | [] => True
  | (f, l) :: below => 0 <= f /\ l <= ub /\ chain (Z.min f ub) below
  end.

(** No collapse was rejected by the validator among the events. *)
Definition no_reject (evs : list Event) : bool :=
  forallb (fun e => match e with
                    | CallValidateConstraints _ _ _ false => false
                    | _ => true
                    end) evs.

(** The events the validator logs, and those [process_line] logs. *)
Definition is_validator_event (e : Event) : bool :=
  match e with
  | InfoNonSimple _ | PrintPolygonizeNotValid | CallGetSegmentIntersect _ _ _
  | CallValidateSimplicity _ | CallValidateIntersection _ | CallPolygonize _
  | CallValidateSidedness _ => true
  | _ => false
  end.

Definition is_line_event (e : Event) : bool :=
  match e with
  | CallValidateConstraints _ _ _ _ | CallDeleteVertex _ _ _ => true
  | _ => is_validator_event e
  end.

(** The counts of the "Vertice deleted" messages, one per pass. *)
Definition pass_deletions (evs : list Event) : list Z :=
  omap (fun e => match e with InfoVerticeDeleted n => Some n | _ => None end) evs.

(** The positions [process_line] was called on. *)
Definition process_line_calls (evs : list Event) : list nat :=
  omap (fun e => match e with CallProcessLine k => Some k | _ => None end) evs.

(** The spans submitted to the validator. *)
Definition validator_calls (evs : list Event) : list (nat * Z * Z) :=
  omap (fun e => match e with
                 | CallValidateConstraints k f l _ => Some (k, f, l)
                 | _ => None
                 end) evs.

(** The answers of the integrity check of the spatial index. *)
Definition integrity_calls (evs : list Event) : list bool :=
  omap (fun e => match e with CallValidateIntegrity r => Some r | _ => None end) evs.

Definition sum_Z (l : list Z) : Z := foldr Z.add 0 l.

(** The number of vertices of all geometries. *)
Definition total_vertices (w : World) : nat :=
  sum_list_with (fun g => length (qgs_geom g)) (rb_geoms w).

(** The state in which [process_line] enters its loop. *)
Definition entry_state (E : GeoEnv) (w : World) (k : nat) : LoopState :=
  {| stack := init_stack E (live w k);
     world := set_is_simplest k true w;
     deleted := 0 |}.

(** The states the loop goes through from a given state. *)
Inductive reach (E : GeoEnv) (tolerance : Q) (k : nat) (pts : QgsLineString)
    (st0 : LoopState) : LoopState -> Prop :=
| reach_start : reach E tolerance k pts st0 st0
| reach_step st st' :
    reach E tolerance k pts st0 st ->
    loop_step E tolerance k pts st = Some (Ok st') ->
    reach E tolerance k pts st0 st'.

(** The invariant of the loop of [process_line] on the geometry at [k],
    with [pts] the copy of its vertices taken on entry and [w0] the world on
    entry: the stack is a chain below [ub], and up to [ub] the live
    geometry still is the copy. *)
Record loop_inv (E : GeoEnv) (k : nat) (pts : QgsLineString) (w0 : World) (ub : Z)
    (st : LoopState) : Prop := {
  inv_chain : chain ub (stack st);
  inv_ub : ub + 1 <= Z.of_nat (length (live (world st) k));
  inv_prefix : take (Z.to_nat (ub + 1)) (live (world st) k) = take (Z.to_nat (ub + 1)) pts;
  inv_head : head (live (world st) k) = head pts;
  inv_last : last (live (world st) k) = last pts;
  inv_count : Z.of_nat (length (live (world st) k)) + deleted st = Z.of_nat (length pts);
  inv_deleted : 0 <= deleted st;
  inv_valid : is_Some (rb_geoms (world st) !! k);
  inv_others : forall j, j <> k -> rb_geoms (world st) !! j = rb_geoms w0 !! j;
  inv_results : rb_results (world st) = rb_results w0;
  inv_polls : polls (world st) = polls w0;
  inv_trace : exists evs, trace (world st) = trace w0 ++ evs /\
                is_simplest <$> rb_geoms (world st) !! k = Some (no_reject evs) /\
                forallb is_line_event evs = true;
  inv_ring : isClosed E pts = true ->
             deleted st = 0 \/ 4 <= Z.of_nat (length (live (world st) k));
  inv_length : length (rb_geoms (world st)) = length (rb_geoms w0);
  inv_sublist : live (world st) k `sublist_of` pts;
  inv_id : id <$> rb_geoms (world st) !! k = id <$> rb_geoms w0 !! k
}.

(** The geometry at [k] with the vertices [lb] to [ub] removed. *)
Definition with_removed (g : RbGeom) (lb ub : Z) : RbGeom :=
  {| id := id g; qgs_geom := remove_vertices (qgs_geom g) lb ub;
     is_simplest := is_simplest g |}.

(** Every span ends where or before each span above it begins (the top of
    the stack comes first). *)
Fixpoint ordered_spans (st : list (Z * Z)) : Prop :=
  match st with
  | [] => True
  | (f, _) :: below => Forall (fun s => snd s <= f) below /\ ordered_spans below
  end.

(** The checks left when the simplicity test is skipped. *)
Definition checks_without_simplicity (E : GeoEnv) (w : World) (g : RbGeom)
    (first last : Z) : list (Check * bool) :=
  let ls := qgs_geom g in
  match snd (segments_near E w g first last) with
  | [] => []
  | others =>
      [(Intersection, validate_intersection E others (chord ls first last));
       (Sidedness, polygonize_isSimple E (closed_subline ls first last)
                   && validate_sidedness E others (closed_subline ls first last))]
  end.

(** What a run may make of a geometry: a sub sequence of its vertices with
    the same two ends, of at least 4 vertices if the geometry is closed and
    had as many. *)
Definition shrunk (E : GeoEnv) (g g' : RbGeom) : Prop :=
  qgs_geom g' `sublist_of` qgs_geom g /\
  head (qgs_geom g') = head (qgs_geom g) /\
  last (qgs_geom g') = last (qgs_geom g) /\
  (isClosed E (qgs_geom g) = true ->
   (4 <= length (qgs_geom g))%nat -> (4 <= length (qgs_geom g'))%nat).

Definition worlds_shrunk (E : GeoEnv) (w w' : World) : Prop :=
  length (rb_geoms w') = length (rb_geoms w) /\
  forall j g, rb_geoms w !! j = Some g ->
    exists g', rb_geoms w' !! j = Some g' /\ shrunk E g g'.

(** The worlds a run can be in, from the world [w0]: those met in the loop
    of a call of [process_line], and those that differ by what is kept
    beside the geometries (statistics, messages, polls). *)
Inductive run_point (E : GeoEnv) (tolerance : Q) (w0 : World) : World -> Prop :=
| run_start : run_point E tolerance w0 w0
| run_loop w k st :
    run_point E tolerance w0 w ->
    is_Some (rb_geoms w !! k) ->
    reach E tolerance k (live w k) (entry_state E w k) st ->
    run_point E tolerance w0 (world st)
| run_book w w' :
    run_point E tolerance w0 w ->
    rb_geoms w' = rb_geoms w ->
    run_point E tolerance w0 w'.

(** What a call of [process_line] on the geometry [g] at [k] did. *)
Record line_post (E : GeoEnv) (k : nat) (g : RbGeom) (w w' : World) (d : Z)
    (evs : list Event) : Prop := {
  lp_geom : exists g', rb_geoms w' !! k = Some g' /\ shrunk E g g' /\
              Z.of_nat (length (qgs_geom g')) + d = Z.of_nat (length (qgs_geom g)) /\
              is_simplest g' = no_reject evs;
  lp_others : forall j, j <> k -> rb_geoms w' !! j = rb_geoms w !! j;
  lp_length : length (rb_geoms w') = length (rb_geoms w);
  lp_results : rb_results w' = rb_results w;
  lp_polls : polls w' = polls w;
  lp_trace : trace w' = trace w ++ evs;
  lp_events : forallb is_line_event evs = true;
  lp_nonneg : 0 <= d
}.

(** What a part of a run did: [d] vertices deleted, [evs] logged. *)
Record run_rel (E : GeoEnv) (w w' : World) (evs : list Event) (d : Z) : Prop := {
  rr_shrunk : worlds_shrunk E w w';
  rr_total : Z.of_nat (total_vertices w') + d = Z.of_nat (total_vertices w);
  rr_nonneg : 0 <= d;
  rr_trace : trace w' = trace w ++ evs;
  rr_skip : forall k g, rb_geoms w !! k = Some g -> is_simplest g = true ->
              rb_geoms w' !! k = Some g /\ k ∉ process_line_calls evs;
  rr_quiet : integrity_calls evs = []
}.

(** What [_simplify_lines] did: the passes stop at the first that deletes
    no vertex, and the statistics add up. *)
Record passes_post (E : GeoEnv) (w w' : World) (evs : list Event) : Prop := {
  pp_rel : run_rel E w w' evs (sum_Z (pass_deletions evs));
  pp_stop : exists ds, pass_deletions evs = ds ++ [0] /\ Forall (fun d => 0 < d) ds;
  pp_deleted : nbr_vertice_deleted (rb_results w') =
               nbr_vertice_deleted (rb_results w) + sum_Z (pass_deletions evs);
  pp_pass : nbr_pass (rb_results w') =
            nbr_pass (rb_results w) + Z.of_nat (length (pass_deletions evs));
  pp_fields : in_nbr_features (rb_results w') = in_nbr_features (rb_results w) /\
              out_nbr_features (rb_results w') = out_nbr_features (rb_results w) /\
              qgs_features_out (rb_results w') = qgs_features_out (rb_results w) /\
              is_structure_valid (rb_results w') = is_structure_valid (rb_results w)
}.

(** Whether a pass calls [process_line] on the geometry numbered [k]: the
    geometry is not marked as at its simplest form. *)
Definition pending (w : World) (k : nat) : bool :=
  match rb_geoms w !! k with
  | Some g => negb (is_simplest g)
  | None => false
  end.

(** What the [for] loop of a pass did from the state [w]: it went through
    the geometries numbered below [m], in order, polling the feedback object
    before each (the answer was no) and calling [process_line] on those,
    and only those, not marked as at their simplest form; it went through
    all the geometries unless the next poll answered that the run is
    cancelled. *)
Record visits (E : GeoEnv) (w w' : World) (evs : list Event) (m : nat) : Prop := {
  vs_bound : (m <= length (rb_geoms w))%nat;
  vs_calls : process_line_calls evs = List.filter (pending w) (seq 0 m);
  vs_polled : forall j, (j < m)%nat -> isCanceled E (polls w + j) = false;
  vs_canceled : (m < length (rb_geoms w))%nat ->
                isCanceled E (polls w + m) = true /\ polls w' = S (polls w + m);
  vs_full : m = length (rb_geoms w) -> polls w' = (polls w + m)%nat
}.



(** Every span of three vertices or more has a vertex off its chord. *)
Definition off_chord (E : GeoEnv) (pts : QgsLineString) : Prop :=
  forall f l, 0 <= f -> f + 2 <= l -> l < Z.of_nat (length pts) ->
    exists i, f < i < l /\ (0 < chord_dist E pts f l i)%Q.

(** ** Example geometries *)

(** An open line with three vertices on one straight line. *)
Definition straight3 : QgsLineString := [pt 0 0; pt 1 0; pt 2 0].

(** An open line with one bend of height 1. *)
Definition bend3 : QgsLineString := [pt 0 0; pt 1 1; pt 2 0].

(** An open line with a bend of height 2 whose top is flat. *)
Definition bend5 : QgsLineString := [pt 0 0; pt 1 2; pt 2 2; pt 3 2; pt 4 0].

(** A ring of five vertices that comes back to its start point half way. *)
Definition ring5 : QgsLineString := [pt 0 0; pt 0 1; pt 0 0; pt 0 (-1); pt 0 0].

(** A ring of four vertices. *)
Definition ring4 : QgsLineString := [pt 0 0; pt 0 1; pt 0 0; pt 0 0].

(** ** Notions used to state further properties *)

(** The spans the validator accepted, and the ranges of vertices the
    spatial index was asked to delete, in the order of the events. *)
Definition accepted_spans (evs : list Event) : list (Z * Z) :=
  omap (fun e => match e with
                 | CallValidateConstraints _ f l true => Some (f, l)
                 | _ => None
                 end) evs.

Definition delete_requests (evs : list Event) : list (Z * Z) :=
  omap (fun e => match e with
                 | CallDeleteVertex _ lb ub => Some (lb, ub)
                 | _ => None
                 end) evs.

(** The vertex numbers strictly inside a span, and their number. *)
Definition interior (s : Z * Z) : Z * Z := (fst s + 1, snd s - 1).

Definition interior_size (s : Z * Z) : Z := snd s - fst s - 1.

(** A span of the vertex sequence [pts] all of whose interior vertices are
    within the tolerance of its chord. *)
Definition within_tolerance (E : GeoEnv) (tolerance : Q) (pts : QgsLineString)
    (s : Z * Z) : Prop :=
  0 <= fst s /\ fst s + 1 < snd s /\ snd s < Z.of_nat (length pts) /\
  forall i, fst s < i < snd s -> (chord_dist E pts (fst s) (snd s) i <= tolerance)%Q.

(** Every span of three vertices or more has a vertex farther from its
    chord than the tolerance. *)
Definition above_tolerance (E : GeoEnv) (tolerance : Q) (pts : QgsLineString) : Prop :=
  forall f l, 0 <= f -> f + 2 <= l -> l < Z.of_nat (length pts) ->
    exists i, f < i < l /\ (tolerance < chord_dist E pts f l i)%Q.

(** The vertex sequence [ls] is what is left of the geometry [g]: a sub
    sequence with the same first and last vertex. *)
Definition kept_of (g : RbGeom) (ls : QgsLineString) : Prop :=
  ls `sublist_of` qgs_geom g /\
  head ls = head (qgs_geom g) /\
  last ls = last (qgs_geom g).

(** The state in which [reduce] calls [_simplify_lines]: the geometries of
    all the features, fresh statistics holding the number of features. *)
Definition reduce_entry (gs_features : list (list RbGeom)) : World :=
  {| rb_geoms := concat gs_features;
     rb_results :=
       {| in_nbr_features := Some (Z.of_nat (length gs_features));
          out_nbr_features := None; nbr_vertice_deleted := 0;
          qgs_features_out := None; nbr_pass := 0;
          is_structure_valid := None |};
     trace := []; polls := 0 |}.

(** The environment of the examples with a feedback object that answers
    every poll with a cancellation. *)
Definition canceled_env : GeoEnv :=
  {| same_location := point_eqb;
     distance := axis_distance;
     geom_length := axis_length;
     ZERO_RELATIVE := (1 # 1000000)%Q;
     get_segment_intersect := fun _ _ _ => ([], []);
     validate_simplicity := fun _ _ => true;
     validate_intersection := fun _ _ => true;
     polygonize_isSimple := fun _ => true;
     validate_sidedness := fun _ _ => true;
     validate_integrity := fun _ => true;
     isCanceled := fun _ => true |}.

(** ** Python list operations *)

Lemma res_bind_Ok {A B : Type} (c : Res A) (f : A -> Res B) (b : B) :
  res_bind c f = Ok b -> exists a, c = Ok a /\ f a = Ok b.
Proof. destruct c; simpl; intros H; try discriminate. eauto. Qed.

Lemma py_getitem_nonneg {A : Type} (l : list A) (i : Z) (x : A) :
  0 <= i -> l !! Z.to_nat i = Some x -> py_getitem l i = Ok x.
Proof.
  intros Hi Hx. unfold py_getitem.
  pose proof (lookup_lt_Some _ _ _ Hx) as Hlt.
  destruct (Z.ltb_spec i 0); [lia|].
  destruct (Z.leb_spec 0 i); [|lia].
  destruct (Z.ltb_spec i (Z.of_nat (length l))); [|lia].
  simpl. now rewrite Hx.
Qed.

Lemma py_getitem_in_range {A : Type} (l : list A) (i : Z) :
  0 <= i < Z.of_nat (length l) -> exists x, l !! Z.to_nat i = Some x /\ py_getitem l i = Ok x.
Proof.
  intros Hi. destruct (lookup_lt_is_Some_2 l (Z.to_nat i)) as [x Hx]; [lia|].
  exists x. split; [done|]. apply py_getitem_nonneg; [lia|done].
Qed.

Lemma py_getitem_last {A : Type} (l : list A) (x : A) :
  py_getitem (l ++ [x]) (-1) = Ok x.
Proof.
  unfold py_getitem. rewrite length_app. simpl.
  destruct (Z.ltb_spec (-1) 0); [|lia].
  destruct (Z.leb_spec 0 (-1 + Z.of_nat (length l + 1))); [|lia].
  destruct (Z.ltb_spec (-1 + Z.of_nat (length l + 1)) (Z.of_nat (length l + 1))); [|lia].
  simpl. replace (Z.to_nat (-1 + Z.of_nat (length l + 1))) with (length l) by lia.
  now rewrite list_lookup_middle.
Qed.

Lemma res_mapM_total {A B : Type} (f : A -> Res B) (g : A -> B) (l : list A) :
  (forall x, x ∈ l -> f x = Ok (g x)) -> res_mapM f l = Ok (g <$> l).
Proof.
  induction l as [|x xs IH]; intros Hf; [done|].
  simpl. rewrite (Hf x) by apply list_elem_of_here. simpl.
  rewrite IH; [done|]. intros y Hy. apply Hf. now apply list_elem_of_further.
Qed.

Lemma Qlt_bool_true (a b : Q) : Qlt_bool a b = true <-> (a < b)%Q.
Proof.
  unfold Qlt_bool. rewrite negb_true_iff. split.
  - intros H. apply Qnot_le_lt. intros Hle. apply Qle_bool_iff in Hle. congruence.
  - intros H. destruct (Qle_bool b a) eqn:Hb; [|done].
    apply Qle_bool_iff in Hb. exfalso. now apply (Qlt_not_le a b).
Qed.

Lemma Qlt_bool_false (a b : Q) : Qlt_bool a b = false <-> (b <= a)%Q.
Proof.
  unfold Qlt_bool. rewrite negb_false_iff. apply Qle_bool_iff.
Qed.

Lemma Qle_bool_false (a b : Q) : Qle_bool a b = false <-> (b < a)%Q.
Proof.
  split.
  - intros H. apply Qnot_le_lt. intros Hle. apply Qle_bool_iff in Hle. congruence.
  - intros H. destruct (Qle_bool a b) eqn:Hb; [|done].
    apply Qle_bool_iff in Hb. exfalso. now apply (Qlt_not_le b a).
Qed.

Lemma run_max_ge (ds : list Q) (m : Q) :
  (m <= run_max m ds)%Q /\ (forall x, x ∈ ds -> (x <= run_max m ds)%Q).
Proof.
  revert m. induction ds as [|d ds IH]; intros m; simpl.
  - split; [apply Qle_refl|]. intros x Hx. inversion Hx.
  - unfold run_max in *. simpl.
    destruct (Qlt_bool m d) eqn:Hmd.
    + apply Qlt_bool_true in Hmd. destruct (IH d) as [H1 H2]. split.
      * eapply Qle_trans; [apply Qlt_le_weak, Hmd|exact H1].
      * intros x Hx. apply elem_of_cons in Hx as [->|Hx]; [exact H1|now apply H2].
    + apply Qlt_bool_false in Hmd. destruct (IH m) as [H1 H2]. split; [exact H1|].
      intros x Hx. apply elem_of_cons in Hx as [->|Hx]; [|now apply H2].
      eapply Qle_trans; [exact Hmd|exact H1].
Qed.

Lemma run_max_elem (ds : list Q) (m : Q) : run_max m ds ∈ m :: ds.
Proof.
  revert m. induction ds as [|d ds IH]; intros m.
  - apply list_elem_of_here.
  - unfold run_max in *. simpl. destruct (Qlt_bool m d).
    + apply list_elem_of_further, IH.
    + specialize (IH m). apply elem_of_cons in IH as [Heq|Hin].
      * rewrite Heq. apply list_elem_of_here.
      * now apply list_elem_of_further, list_elem_of_further.
Qed.

Lemma py_max_spec (l : list Q) :
  l <> [] -> exists m, py_max l = Ok m /\ m ∈ l /\ (forall x, x ∈ l -> (x <= m)%Q).
Proof.
  destruct l as [|d ds]; [done|]. intros _.
  exists (run_max d ds). split; [done|]. split; [apply run_max_elem|].
  intros x Hx. destruct (run_max_ge ds d) as [H1 H2].
  apply elem_of_cons in Hx as [->|Hx]; [exact H1|now apply H2].
Qed.

Lemma py_index_spec (v : Q) (l : list Q) :
  (exists x, x ∈ l /\ (x == v)%Q) ->
  exists i d, py_index v l = Ok (Z.of_nat i) /\ l !! i = Some d /\ (d == v)%Q /\
    (forall j d', (j < i)%nat -> l !! j = Some d' -> ~ (d' == v)%Q).
Proof.
  induction l as [|d ds IH]; intros (x & Hx & Hxv); [inversion Hx|].
  simpl. destruct (Qeq_bool d v) eqn:Hd.
  - exists 0%nat, d. apply Qeq_bool_iff in Hd. repeat split; [done|]. intros; lia.
  - destruct IH as (i & d0 & Hi & Hl & Hd0 & Hfirst).
    { apply elem_of_cons in Hx as [->|Hx]; [|eauto].
      apply Qeq_bool_iff in Hxv. congruence. }
    exists (S i), d0. rewrite Hi. simpl. split; [f_equal; lia|].
    repeat split; [done..|].
    intros [|j] d' Hj Hd'; simpl in Hd'.
    + inversion Hd'; subst. intros Heq. apply Qeq_bool_iff in Heq. congruence.
    + apply (Hfirst j); [lia|done].
Qed.

(** ** The validator *)

Lemma add_events_nil (w : World) : add_events [] w = w.
Proof. destruct w. unfold add_events. simpl. now rewrite app_nil_r. Qed.

Lemma add_events_app (evs evs' : list Event) (w : World) :
  add_events evs' (add_events evs w) = add_events (evs ++ evs') w.
Proof. unfold add_events. simpl. now rewrite app_assoc. Qed.

Lemma log_add_events (e : Event) (w : World) : log e w = add_events [e] w.
Proof. reflexivity. Qed.

Lemma vertexAt_lookup (ls : QgsLineString) (i : Z) (p : QgsPoint) :
  0 <= i -> ls !! Z.to_nat i = Some p -> vertexAt ls i = p.
Proof.
  intros Hi Hp. unfold vertexAt. destruct (Z.ltb_spec i 0); [lia|]. now rewrite Hp.
Qed.

Lemma py_getitem_vertexAt (ls : QgsLineString) (i : Z) :
  0 <= i < Z.of_nat (length ls) -> py_getitem ls i = Ok (vertexAt ls i).
Proof.
  intros Hi. destruct (py_getitem_in_range ls i Hi) as (x & Hx & ->).
  f_equal. symmetry. apply vertexAt_lookup; [lia|done].
Qed.

Lemma subline_first (ls : QgsLineString) (first last : Z) :
  first <= last -> py_getitem (subline ls first last) 0 = Ok (vertexAt ls first).
Proof.
  intros Hle. apply py_getitem_nonneg; [lia|].
  unfold subline, py_range. rewrite list_lookup_fmap, lookup_seqZ_lt by lia.
  simpl. f_equal. f_equal. lia.
Qed.

Lemma py_getitem_minus1 {A : Type} (l : list A) (x : A) :
  l !! (length l - 1)%nat = Some x -> py_getitem l (-1) = Ok x.
Proof.
  intros Hx. pose proof (lookup_lt_Some _ _ _ Hx) as Hlt.
  unfold py_getitem.
  destruct (Z.ltb_spec (-1) 0); [|lia].
  destruct (Z.leb_spec 0 (-1 + Z.of_nat (length l))); [|lia].
  destruct (Z.ltb_spec (-1 + Z.of_nat (length l)) (Z.of_nat (length l))); [|lia].
  simpl. replace (Z.to_nat (-1 + Z.of_nat (length l))) with (length l - 1)%nat by lia.
  now rewrite Hx.
Qed.

Lemma subline_last (ls : QgsLineString) (first last : Z) :
  first <= last -> py_getitem (subline ls first last) (-1) = Ok (vertexAt ls last).
Proof.
  intros Hle. apply py_getitem_minus1.
  unfold subline, py_range. rewrite length_fmap, length_seqZ.
  rewrite list_lookup_fmap, lookup_seqZ_lt by lia.
  simpl. f_equal. f_equal. lia.
Qed.

Section ValidatorFacts.

Variable E : GeoEnv.

(** The validator, computed: the degeneracy guard first, then the events of
    the tests that ran and the conjunction of their verdicts. *)
Lemma validate_constraints_unfold (w : World) (k : nat) (g : RbGeom) (first last : Z) :
  rb_geoms w !! k = Some g -> first <= last ->
  validate_constraints E w k first last =
    if degenerate E (qgs_geom g) first last then Ok (false, w)
    else
      let ls := qgs_geom g in
      let '(itself, others) := segments_near E w g first last in
      let ev0 := [CallGetSegmentIntersect (id g) first last] in
      let '(v1, ev1) :=
        if short_chord E ls first last then (true, [InfoNonSimple (vertexAt ls first)])
        else let r := validate_simplicity E itself (chord ls first last) in
             (r, [CallValidateSimplicity r]) in
      let '(v2, ev2) :=
        if v1 && (1 <=? Z.of_nat (length others)) then
          let r := validate_intersection E others (chord ls first last) in
          (r, [CallValidateIntersection r])
        else (v1, []) in
      let '(v3, ev3) :=
        if v2 && (1 <=? Z.of_nat (length others)) then
          if polygonize_isSimple E (closed_subline ls first last) then
            let r := validate_sidedness E others (closed_subline ls first last) in
            (r, [CallPolygonize true; CallValidateSidedness r])
          else (false, [CallPolygonize false; PrintPolygonizeNotValid])
        else (v2, []) in
      Ok (v3, add_events (ev0 ++ ev1 ++ ev2 ++ ev3) w).
Proof.
  intros Hg Hle. unfold validate_constraints, get_geom. rewrite Hg. simpl.
  unfold degenerate.
  destruct (isClosed E (qgs_geom g) && _); [done|].
  fold (subline (qgs_geom g) first last).
  rewrite subline_first, subline_last by done. simpl.
  unfold segments_near, short_chord, chord, closed_subline.
  destruct (get_segment_intersect E _ _ _) as [itself others].
  destruct (Qle_bool _ _); simpl.
  - destruct (validate_simplicity E _ _); simpl.
    + destruct (1 <=? _); simpl.
      * destruct (validate_intersection E _ _); simpl.
        -- destruct (polygonize_isSimple E _); simpl;
             rewrite !log_add_events, !add_events_app; reflexivity.
        -- rewrite !log_add_events, !add_events_app; reflexivity.
      * rewrite !log_add_events, !add_events_app; reflexivity.
    + rewrite !log_add_events, !add_events_app; reflexivity.
  - destruct (1 <=? _); simpl.
    + destruct (validate_intersection E _ _); simpl.
      * destruct (polygonize_isSimple E _); simpl;
          rewrite !log_add_events, !add_events_app; reflexivity.
      * rewrite !log_add_events, !add_events_app; reflexivity.
    + rewrite !log_add_events, !add_events_app; reflexivity.
Qed.

End ValidatorFacts.

(** ** The farthest point of a span *)

Section FarthestPoint.

Variable E : GeoEnv.

Lemma find_farthest_point_spec (pts : QgsLineString) (first last : Z) :
  0 <= first -> first + 2 <= last -> last < Z.of_nat (length pts) ->
  exists fi fd,
    find_farthest_point E pts first last = Ok (fi, fd) /\
    first < fi < last /\
    (chord_dist E pts first last fi == fd)%Q /\
    (forall i, first < i < last -> (chord_dist E pts first last i <= fd)%Q) /\
    (forall i, first < i < fi -> (chord_dist E pts first last i < fd)%Q).
Proof.
  intros Hf Hfl Hl. unfold find_farthest_point.
  destruct (Z.leb_spec 2 (last - first)); [|lia].
  rewrite !py_getitem_vertexAt by lia. simpl.
  set (a := vertexAt pts first). set (b := vertexAt pts last).
  rewrite (res_mapM_total _ (fun i => distance E a b (vertexAt pts i))).
  2:{ intros i Hi. unfold py_range in Hi. apply elem_of_seqZ in Hi.
      rewrite py_getitem_vertexAt by lia. reflexivity. }
  simpl. set (ds := _ <$> py_range (first + 1) last).
  assert (Hlen : length ds = Z.to_nat (last - first - 1)).
  { unfold ds, py_range. rewrite length_fmap, length_seqZ. f_equal. lia. }
  assert (Hlk : forall j, (j < length ds)%nat ->
            ds !! j = Some (chord_dist E pts first last (first + 1 + Z.of_nat j))).
  { intros j Hj. unfold ds, py_range. rewrite list_lookup_fmap, lookup_seqZ_lt by lia.
    reflexivity. }
  destruct (py_max_spec ds) as (m & Hm & Hin & Hmax).
  { intros Hnil. rewrite Hnil in Hlen. simpl in Hlen. lia. }
  rewrite Hm. simpl.
  destruct (py_index_spec m ds) as (i & d & Hi & Hd & Hdm & Hfirst).
  { exists m. split; [done|]. apply Qeq_refl. }
  rewrite Hi. simpl.
  pose proof (lookup_lt_Some _ _ _ Hd) as Hilt.
  exists (Z.of_nat i + first + 1), m. split; [done|]. split; [lia|].
  rewrite Hlk in Hd by done. inversion Hd as [Hd']. clear Hd.
  replace (first + 1 + Z.of_nat i) with (Z.of_nat i + first + 1) in Hd' by lia.
  split; [now rewrite Hd'|].
  split.
  - intros j Hj. apply Hmax.
    apply (list_elem_of_lookup_2 _ (Z.to_nat (j - first - 1))).
    rewrite Hlk by lia. do 2 f_equal. lia.
  - intros j Hj.
    assert (Hle : (chord_dist E pts first last j <= m)%Q).
    { apply Hmax. apply (list_elem_of_lookup_2 _ (Z.to_nat (j - first - 1))).
      rewrite Hlk by lia. do 2 f_equal. lia. }
    apply Qle_lt_or_eq in Hle as [Hlt|Heq]; [done|].
    exfalso. apply (Hfirst (Z.to_nat (j - first - 1)) (chord_dist E pts first last j)); [lia| |done].
    rewrite Hlk by lia. do 2 f_equal. lia.
Qed.

End FarthestPoint.

(** ** One iteration of the loop of [process_line] *)

Lemma no_reject_app (a b : list Event) : no_reject (a ++ b) = no_reject a && no_reject b.
Proof. unfold no_reject. apply forallb_app. Qed.

Lemma live_lookup (w : World) (k : nat) (g : RbGeom) :
  rb_geoms w !! k = Some g -> live w k = qgs_geom g.
Proof. intros H. unfold live. now rewrite H. Qed.

Lemma world_eq (w w' : World) :
  rb_geoms w = rb_geoms w' -> rb_results w = rb_results w' ->
  trace w = trace w' -> polls w = polls w' -> w = w'.
Proof. destruct w, w'. simpl. intros; subst. reflexivity. Qed.

Section LoopBody.

Variable E : GeoEnv.
Variable tolerance : Q.
Variable k : nat.
Variable pts : QgsLineString.

Lemma validate_constraints_events (w : World) (g : RbGeom) (first last : Z) :
  rb_geoms w !! k = Some g -> first <= last ->
  exists r evs,
    validate_constraints E w k first last = Ok (r, add_events evs w) /\
    forallb is_validator_event evs = true /\
    (r = true -> degenerate E (qgs_geom g) first last = false).
Proof.
  intros Hg Hle. rewrite (validate_constraints_unfold E w k g) by done.
  destruct (degenerate E (qgs_geom g) first last).
  { exists false, []. rewrite add_events_nil. repeat split; done. }
  destruct (segments_near E w g first last) as [itself others]. simpl.
  destruct (short_chord E _ _ _); simpl;
    repeat match goal with
      | |- context [if ?b then _ else _] => destruct b; simpl
      | |- context [let '(_, _) := ?p in _] => destruct p; simpl
      end;
    eexists _, _; (split; [reflexivity|]); split; reflexivity || done.
Qed.

(** What one iteration does, for a span inside the copy of the vertices. *)
Lemma loop_body_cases (first last : Z) (rest : list (Z * Z)) (w : World) (n : Z)
    (g : RbGeom) :
  rb_geoms w !! k = Some g -> 0 <= first -> last < Z.of_nat (length pts) ->
  (~ first + 1 < last /\
   loop_body E tolerance k pts first last rest w n =
     Ok {| stack := rest; world := w; deleted := n |})
  \/
  (first + 1 < last /\
   exists fi fd,
     find_farthest_point E pts first last = Ok (fi, fd) /\
     first < fi < last /\
     ((Qle_bool fd tolerance = false /\
       loop_body E tolerance k pts first last rest w n =
         Ok {| stack := (fi, last) :: (first, fi) :: rest; world := w; deleted := n |})
      \/
      (Qle_bool fd tolerance = true /\
       exists evs,
         validate_constraints E w k first last = Ok (true, add_events evs w) /\
         forallb is_validator_event evs = true /\
         degenerate E (qgs_geom g) first last = false /\
         loop_body E tolerance k pts first last rest w n =
           Ok {| stack := rest;
                 world := add_events
                            (evs ++ [CallValidateConstraints k first last true;
                                     CallDeleteVertex (id g) (first + 1) (last - 1)])
                            (set_geoms (<[k := with_removed g (first + 1) (last - 1)]>
                                          (rb_geoms w)) w);
                 deleted := n + (last - first - 1) |})
      \/
      (Qle_bool fd tolerance = true /\
       exists evs,
         validate_constraints E w k first last = Ok (false, add_events evs w) /\
         forallb is_validator_event evs = true /\
         loop_body E tolerance k pts first last rest w n =
           Ok {| stack := (fi, last) :: (first, fi) :: rest;
                 world := set_is_simplest k false
                            (add_events
                               (evs ++ [CallValidateConstraints k first last false]) w);
                 deleted := n |}))).
Proof.
  intros Hg Hf Hl. unfold loop_body.
  destruct (Z.ltb_spec (first + 1) last) as [Hlt|Hge].
  2:{ left. split; [lia|done]. }
  right. split; [done|].
  destruct (find_farthest_point_spec E pts first last) as (fi & fd & Hfp & Hfi & _);
    [lia..|].
  exists fi, fd. split; [done|]. split; [done|].
  rewrite Hfp. simpl.
  destruct (Qle_bool fd tolerance) eqn:Htol.
  2:{ left. done. }
  right.
  destruct (validate_constraints_events w g first last) as (r & evs & Hv & Hnr & Hdeg);
    [done|lia|].
  rewrite Hv. simpl. destruct r.
  - left. split; [done|]. exists evs. split; [done|]. split; [done|].
    split; [now apply Hdeg|].
    unfold delete_vertex, get_geom. simpl. rewrite Hg. simpl.
    f_equal. f_equal. apply world_eq; simpl; try reflexivity.
    now rewrite <- !app_assoc.
  - right. split; [done|]. exists evs. split; [done|]. split; [done|].
    f_equal. f_equal. f_equal. apply world_eq; simpl; try reflexivity.
    now rewrite <- !app_assoc.
Qed.

End LoopBody.

(** ** Removing the interior of a span *)

Lemma take_le_eq {A : Type} (l l' : list A) (m n : nat) :
  take n l = take n l' -> (m <= n)%nat -> take m l = take m l'.
Proof.
  intros H Hmn. rewrite <- (Nat.min_l m n) by lia.
  rewrite <- !take_take. now rewrite H.
Qed.

Lemma last_drop {A : Type} (l : list A) (m : nat) :
  (m < length l)%nat -> last (drop m l) = last l.
Proof.
  intros Hm. rewrite !last_lookup, lookup_drop, length_drop. f_equal. lia.
Qed.

Lemma remove_vertices_interior (lv : QgsLineString) (lo hi : Z) :
  0 <= lo -> lo + 1 < hi -> hi < Z.of_nat (length lv) ->
  remove_vertices lv (lo + 1) (hi - 1) =
    take (Z.to_nat (lo + 1)) lv ++ drop (Z.to_nat hi) lv /\
  Z.of_nat (length (remove_vertices lv (lo + 1) (hi - 1))) =
    Z.of_nat (length lv) - (hi - lo - 1) /\
  head (remove_vertices lv (lo + 1) (hi - 1)) = head lv /\
  last (remove_vertices lv (lo + 1) (hi - 1)) = last lv /\
  take (Z.to_nat (lo + 1)) (remove_vertices lv (lo + 1) (hi - 1)) =
    take (Z.to_nat (lo + 1)) lv.
Proof.
  intros Hf Hfl Hl.
  assert (Heq : remove_vertices lv (lo + 1) (hi - 1) =
                take (Z.to_nat (lo + 1)) lv ++ drop (Z.to_nat hi) lv).
  { unfold remove_vertices. destruct (Z.leb_spec (lo + 1) (hi - 1)); [|lia].
    do 3 f_equal. lia. }
  rewrite Heq. split; [done|].
  assert (Hlt : length (take (Z.to_nat (lo + 1)) lv) = Z.to_nat (lo + 1)).
  { rewrite length_take. lia. }
  split; [rewrite length_app, Hlt, length_drop; lia|].
  split.
  { rewrite !head_lookup, lookup_app_l by lia. apply lookup_take_lt. lia. }
  split.
  { rewrite last_app, last_drop by lia.
    destruct (last lv) eqn:Hlast; [done|].
    apply last_None in Hlast. subst lv. simpl in Hl. lia. }
  rewrite take_app_le by lia. rewrite take_take. f_equal. lia.
Qed.

Lemma remove_vertices_sublist (lv : QgsLineString) (lb ub : Z) :
  remove_vertices lv lb ub `sublist_of` lv.
Proof.
  unfold remove_vertices. destruct (Z.leb_spec lb ub) as [Hle|Hgt]; [|done].
  rewrite <- (take_drop (Z.to_nat lb) lv) at 3.
  apply sublist_app; [done|].
  replace (Z.to_nat (ub + 1)) with (Z.to_nat lb + (Z.to_nat (ub + 1) - Z.to_nat lb))%nat
    by lia.
  rewrite <- drop_drop. apply sublist_drop.
Qed.

Lemma validator_events_line (evs : list Event) :
  forallb is_validator_event evs = true ->
  no_reject evs = true /\ forallb is_line_event evs = true.
Proof.
  unfold no_reject. rewrite !forallb_forall. intros H.
  split; intros e He; specialize (H e He); now destruct e.
Qed.

(** ** The invariant of the loop *)

Section LoopInvariant.

Variable E : GeoEnv.
Variable tolerance : Q.
Variable k : nat.
Variable pts : QgsLineString.
Variable w0 : World.

Lemma set_is_simplest_lookup (b : bool) (w : World) (g : RbGeom) :
  rb_geoms w !! k = Some g ->
  rb_geoms (set_is_simplest k b w) !! k =
    Some {| id := id g; qgs_geom := qgs_geom g; is_simplest := b |}.
Proof.
  intros Hg. unfold set_is_simplest. rewrite Hg. simpl.
  apply list_lookup_insert_eq. now apply lookup_lt_Some in Hg.
Qed.

Lemma set_is_simplest_other (b : bool) (w : World) (j : nat) :
  j <> k -> rb_geoms (set_is_simplest k b w) !! j = rb_geoms w !! j.
Proof.
  intros Hj. unfold set_is_simplest. destruct (rb_geoms w !! k); [|done].
  simpl. now apply list_lookup_insert_ne.
Qed.

Lemma set_is_simplest_length (b : bool) (w : World) :
  length (rb_geoms (set_is_simplest k b w)) = length (rb_geoms w).
Proof.
  unfold set_is_simplest. destruct (rb_geoms w !! k); [|done].
  simpl. apply length_insert.
Qed.

Lemma set_is_simplest_fields (b : bool) (w : World) :
  rb_results (set_is_simplest k b w) = rb_results w /\
  trace (set_is_simplest k b w) = trace w /\
  polls (set_is_simplest k b w) = polls w.
Proof. unfold set_is_simplest. destruct (rb_geoms w !! k); done. Qed.

Lemma loop_body_inv (ub first last : Z) (rest : list (Z * Z)) (w : World) (n : Z) :
  loop_inv E k pts w0 ub {| stack := (first, last) :: rest; world := w; deleted := n |} ->
  exists st' ub',
    loop_body E tolerance k pts first last rest w n = Ok st' /\
    loop_inv E k pts w0 ub' st' /\
    (stack_weight (stack st') < stack_weight ((first, last) :: rest))%nat.
Proof.
  intros [Hchain Hub Hpre Hhead Hlast Hcount Hdel [g Hg] Hoth Hres Hpolls
          (evs0 & Htr & Hsimp & Hline) Hring Hlength Hsub Hid].
  simpl in *. destruct Hchain as (Hf & Hl & Hchain).
  rewrite (live_lookup w k g Hg) in *.
  assert (Hpre' : take (Z.to_nat (Z.min first ub + 1)) (qgs_geom g) =
                  take (Z.to_nat (Z.min first ub + 1)) pts).
  { apply (take_le_eq _ _ _ _ Hpre). lia. }
  destruct (loop_body_cases E tolerance k pts first last rest w n g Hg Hf) as
    [[Hshort Hbody]|(Hlong & fi & fd & Hfp & Hfi & Hcases)]; [lia| |].
  - (* a span of two points *)
    eexists _, (Z.min first ub). split; [exact Hbody|]. split.
    + constructor; simpl; rewrite ?(live_lookup w k g Hg); eauto; lia.
    + simpl. unfold span_weight. simpl. lia.
  - destruct Hcases as [[Htol Hbody]|[(Htol & evs & Hv & Hnr & Hdeg & Hbody)
                                     |(Htol & evs & Hv & Hnr & Hbody)]].
    + (* split *)
      eexists _, ub. split; [exact Hbody|]. split.
      * constructor; simpl; rewrite ?(live_lookup w k g Hg); eauto.
        repeat split; try lia.
        replace (Z.min first (Z.min fi ub)) with (Z.min first ub) by lia. done.
      * simpl. unfold span_weight. simpl. lia.
    + (* collapse *)
      destruct (remove_vertices_interior (qgs_geom g) first last) as
        (Hrm & Hlen & Hh & Hla & Htk); [lia..|].
      destruct (validator_events_line evs Hnr) as [Hnr1 Hnr2].
      assert (Hk : (k < length (rb_geoms w))%nat) by now apply lookup_lt_Some in Hg.
      eexists _, (Z.min first ub). split; [exact Hbody|]. split.
      * assert (Hlive : live (add_events
                   (evs ++ [CallValidateConstraints k first last true;
                            CallDeleteVertex (id g) (first + 1) (last - 1)])
                   (set_geoms (<[k := with_removed g (first + 1) (last - 1)]>
                                 (rb_geoms w)) w)) k =
                 remove_vertices (qgs_geom g) (first + 1) (last - 1)).
        { unfold live. simpl. now rewrite list_lookup_insert_eq. }
        constructor; simpl; rewrite ?Hlive; eauto; try lia.
        -- apply (take_le_eq _ _ (Z.to_nat (Z.min first ub + 1))) in Htk; [|lia].
           now rewrite Htk.
        -- congruence.
        -- congruence.
        -- rewrite list_lookup_insert_eq by done. eauto.
        -- intros j Hj. rewrite list_lookup_insert_ne by done. now apply Hoth.
        -- exists (evs0 ++ evs ++ [CallValidateConstraints k first last true;
                                   CallDeleteVertex (id g) (first + 1) (last - 1)]).
           split; [rewrite Htr; now rewrite <- !app_assoc|].
           rewrite list_lookup_insert_eq by done. simpl.
           rewrite Hg in Hsimp. simpl in Hsimp. inversion Hsimp as [Hs].
           rewrite !no_reject_app, !forallb_app, Hnr1, Hnr2, Hline. simpl.
           now rewrite !andb_true_r.
        -- intros Hclosed. right.
           assert (Hc : isClosed E (qgs_geom g) = true).
           { unfold isClosed in *. now rewrite Hhead, Hlast. }
           unfold degenerate in Hdeg. rewrite Hc in Hdeg. simpl in Hdeg.
           apply Z.leb_gt in Hdeg. lia.
        -- rewrite length_insert. done.
        -- etrans; [apply remove_vertices_sublist|done].
        -- rewrite list_lookup_insert_eq by done. simpl. now rewrite <- Hid, Hg.
      * simpl. unfold span_weight. simpl. lia.
    + (* rejected *)
      destruct (validator_events_line evs Hnr) as [Hnr1 Hnr2].
      eexists _, ub. split; [exact Hbody|]. split.
      * assert (Hg' : rb_geoms (add_events
                         (evs ++ [CallValidateConstraints k first last false]) w) !! k
                      = Some g) by done.
        pose proof (set_is_simplest_lookup false _ _ Hg') as Hnew.
        destruct (set_is_simplest_fields false (add_events
                    (evs ++ [CallValidateConstraints k first last false]) w))
          as (Hr & Ht & Hp).
        constructor; simpl; unfold live; rewrite ?Hnew; simpl; eauto.
        -- repeat split; try lia.
           replace (Z.min first (Z.min fi ub)) with (Z.min first ub) by lia. done.
        -- intros j Hj. rewrite set_is_simplest_other by done. now apply Hoth.
        -- now rewrite Hr.
        -- now rewrite Hp.
        -- exists (evs0 ++ evs ++ [CallValidateConstraints k first last false]).
           split; [rewrite Ht; simpl; rewrite Htr; now rewrite <- !app_assoc|].
           rewrite !no_reject_app, !forallb_app, Hnr1, Hnr2, Hline. simpl.
           now rewrite !andb_false_r.
        -- now rewrite set_is_simplest_length.
        -- now rewrite <- Hid, Hg.
      * simpl. unfold span_weight. simpl. lia.
Qed.

End LoopInvariant.

(** ** The loop of [process_line] runs to its end *)

Section ProcessLineFacts.

Variable E : GeoEnv.
Variable tolerance : Q.

Lemma init_stack_chain (pts : QgsLineString) :
  chain (Z.of_nat (length pts) - 1) (init_stack E pts) /\
  (stack_weight (init_stack E pts) <= 2 * length pts + 1)%nat.
Proof.
  unfold init_stack. destruct (isClosed E pts).
  - destruct (Z.leb_spec 5 (Z.of_nat (length pts))) as [H5|H5]; simpl.
    + assert (0 <= Z.of_nat (length pts) / 2) by (apply Z.div_pos; lia).
      assert (Z.of_nat (length pts) / 2 <= Z.of_nat (length pts) - 1).
      { apply Z.lt_le_pred. apply Z.div_lt_upper_bound; lia. }
      split; [repeat split; lia|]. unfold span_weight. simpl. lia.
    + split; [done|lia].
  - simpl. split; [repeat split; lia|]. unfold span_weight. simpl. lia.
Qed.

Lemma entry_inv (w : World) (k : nat) (g : RbGeom) :
  rb_geoms w !! k = Some g ->
  loop_inv E k (qgs_geom g) (set_is_simplest k true w)
    (Z.of_nat (length (qgs_geom g)) - 1) (entry_state E w k).
Proof.
  intros Hg. unfold entry_state. rewrite (live_lookup w k g Hg).
  pose proof (set_is_simplest_lookup k true w g Hg) as Hnew.
  constructor; simpl; unfold live; rewrite ?Hnew; simpl; eauto; try lia.
  - apply init_stack_chain.
  - exists []. now rewrite app_nil_r.
Qed.

Lemma loop_step_inv (k : nat) (pts : QgsLineString) (w0 : World) (ub : Z)
    (st : LoopState) :
  loop_inv E k pts w0 ub st ->
  (stack st = [] /\ loop_step E tolerance k pts st = None) \/
  (exists st' ub',
     loop_step E tolerance k pts st = Some (Ok st') /\
     loop_inv E k pts w0 ub' st' /\
     (stack_weight (stack st') < stack_weight (stack st))%nat).
Proof.
  intros Hinv. unfold loop_step. destruct st as [stk w n]. simpl.
  destruct stk as [|[first last] rest]; [left; done|right].
  destruct (loop_body_inv E tolerance k pts w0 ub first last rest w n Hinv)
    as (st' & ub' & Hbody & Hinv' & Hlt).
  exists st', ub'. now rewrite Hbody.
Qed.

Lemma reach_trans (k : nat) (pts : QgsLineString) (st0 st1 st2 : LoopState) :
  reach E tolerance k pts st0 st1 -> reach E tolerance k pts st1 st2 ->
  reach E tolerance k pts st0 st2.
Proof.
  intros H01 H12. induction H12 as [|st st' _ IH Hstep]; [done|].
  eapply reach_step; eauto.
Qed.

Lemma reach_inv (k : nat) (pts : QgsLineString) (w0 : World) (ub0 : Z)
    (st0 st : LoopState) :
  loop_inv E k pts w0 ub0 st0 -> reach E tolerance k pts st0 st ->
  exists ub, loop_inv E k pts w0 ub st.
Proof.
  intros Hinv Hreach. induction Hreach as [|st st' _ IH Hstep]; [eauto|].
  destruct IH as (ub & Hst).
  destruct (loop_step_inv k pts w0 ub st Hst) as [[_ Hnone]|(st'' & ub' & Hs & Hinv' & _)].
  - congruence.
  - rewrite Hs in Hstep. inversion Hstep; subst. eauto.
Qed.

Lemma while_stack_ends (k : nat) (pts : QgsLineString) (w0 : World) (fuel : nat) :
  forall (ub : Z) (st : LoopState),
    loop_inv E k pts w0 ub st ->
    (stack_weight (stack st) <= fuel)%nat ->
    exists st' ub',
      while_stack E tolerance k pts fuel st = Ok st' /\
      stack st' = [] /\
      loop_inv E k pts w0 ub' st' /\
      reach E tolerance k pts st st'.
Proof.
  induction fuel as [|fuel IH]; intros ub st Hinv Hfuel.
  - destruct (loop_step_inv k pts w0 ub st Hinv)
      as [[Hnil Hnone]|(st' & ub' & Hs & Hinv' & Hlt)]; [|lia].
    exists st, ub. simpl. rewrite Hnone.
      split; [done|]. split; [done|]. split; [done|]. constructor.
  - destruct (loop_step_inv k pts w0 ub st Hinv)
      as [[Hnil Hnone]|(st' & ub' & Hs & Hinv' & Hlt)].
    + exists st, ub. simpl. rewrite Hnone.
      split; [done|]. split; [done|]. split; [done|]. constructor.
    + destruct (IH ub' st' Hinv') as (st2 & ub2 & Hw & Hnil & Hinv2 & Hreach); [lia|].
      exists st2, ub2. simpl. rewrite Hs. simpl. rewrite Hw.
      split; [done|]. split; [done|]. split; [done|].
      eapply reach_trans; [|exact Hreach].
      eapply reach_step; [constructor|exact Hs].
Qed.

(** [process_line] returns, and what holds when it does. *)
Lemma process_line_ends (fuel : nat) (w : World) (k : nat) (g : RbGeom) :
  rb_geoms w !! k = Some g ->
  (2 * length (qgs_geom g) + 1 <= fuel)%nat ->
  exists st ub,
    process_line E tolerance fuel w k = Ok (deleted st, world st) /\
    stack st = [] /\
    loop_inv E k (qgs_geom g) (set_is_simplest k true w) ub st /\
    reach E tolerance k (qgs_geom g) (entry_state E w k) st.
Proof.
  intros Hg Hfuel. unfold process_line, get_geom. rewrite Hg. simpl.
  pose proof (entry_inv w k g Hg) as Hinv.
  destruct (while_stack_ends k (qgs_geom g) _ fuel _ _ Hinv) as (st & ub & Hw & Hnil & Hinv' & Hr).
  { unfold entry_state. simpl. rewrite (live_lookup w k g Hg).
    pose proof (init_stack_chain (qgs_geom g)). lia. }
  exists st, ub. unfold entry_state in Hw. rewrite (live_lookup w k g Hg) in Hw.
  rewrite Hw. simpl. done.
Qed.

End ProcessLineFacts.

(** ** The order of the checks of the validator *)

Lemma leb_1_length_cons {A : Type} (x : A) (l : list A) :
  (1 <=? Z.of_nat (length (x :: l))) = true.
Proof. apply Z.leb_le. simpl. lia. Qed.

(** Closes the statements about a list of verdicts that is known. *)
Ltac check_cases :=
  repeat match goal with
    | |- _ /\ _ => split
    | |- _ -> _ => intro
    | |- forall _, _ => intro
    | H : _ ∈ [] |- _ => inversion H
    | H : _ ∈ _ :: _ |- _ => apply elem_of_cons in H as [H|H]
    | H : (_, _) = (_, _) |- _ => inversion H; clear H; subst
    end;
  try done; try congruence.

(** C1.  The validator runs the degeneracy guard first (a degenerate
    collapse is rejected before any test is made), then the simplicity,
    intersection and sidedness tests in this order, stopping at the first
    that fails; intersection and sidedness are tested only when the index
    returned segments of other geometries; the answer is true only if every
    applicable test passes; and in the sidedness test, made when segments
    of other geometries were returned, a polygonization of the sub line
    closed with its start point that is not simple makes the answer
    false. *)
Theorem validate_constraints_checks_in_order
    (E : GeoEnv) (w : World) (k : nat) (g : RbGeom) (first last : Z) :
  rb_geoms w !! k = Some g -> first <= last ->
  exists r evs,
    validate_constraints E w k first last = Ok (r, add_events evs w) /\
    (degenerate E (qgs_geom g) first last = true -> r = false /\ evs = []) /\
    (degenerate E (qgs_geom g) first last = false ->
       verdicts evs = short_circuit (applicable_checks E w g first last) /\
       r = forallb snd (applicable_checks E w g first last)) /\
    (snd (segments_near E w g first last) = [] ->
       forall c b, (c, b) ∈ verdicts evs -> c = Simplicity) /\
    (r = true ->
       degenerate E (qgs_geom g) first last = false /\
       forall c b, (c, b) ∈ applicable_checks E w g first last -> b = true) /\
    (snd (segments_near E w g first last) <> [] ->
       polygonize_isSimple E (closed_subline (qgs_geom g) first last) = false ->
       r = false).
Proof.
  intros Hg Hle. rewrite (validate_constraints_unfold E w k g) by done.
  unfold applicable_checks.
  destruct (degenerate E (qgs_geom g) first last).
  { exists false, []. rewrite add_events_nil.
    split; [done|]. split; [done|]. split; [done|]. split; [|split; done].
    intros _ c b Hin. inversion Hin. }
  destruct (segments_near E w g first last) as [itself others]. simpl.
  destruct others as [|o os].
  - (* no segment of another geometry *)
    destruct (short_chord E (qgs_geom g) first last);
      destruct (validate_simplicity E itself (chord (qgs_geom g) first last)) eqn:Hs;
      simpl; eexists _, _; (split; [reflexivity|]); simpl; check_cases.
  - rewrite !leb_1_length_cons, ?andb_true_r.
    destruct (short_chord E (qgs_geom g) first last);
      destruct (validate_simplicity E itself (chord (qgs_geom g) first last)) eqn:Hs;
      destruct (validate_intersection E (o :: os) (chord (qgs_geom g) first last)) eqn:Hi;
      destruct (polygonize_isSimple E (closed_subline (qgs_geom g) first last)) eqn:Hp;
      destruct (validate_sidedness E (o :: os) (closed_subline (qgs_geom g) first last))
        eqn:Hd;
      simpl; eexists _, _; (split; [reflexivity|]); simpl; check_cases.
Qed.

Lemma validate_constraints_checks_in_order_witness :
  exists r evs,
    validate_constraints axis_env (mk_world [mk_geom 7 bend3]) 0 0 2 =
      Ok (r, add_events evs (mk_world [mk_geom 7 bend3])) /\
    verdicts evs =
      short_circuit (applicable_checks axis_env (mk_world [mk_geom 7 bend3])
                       (mk_geom 7 bend3) 0 2).
Proof.
  destruct (validate_constraints_checks_in_order axis_env (mk_world [mk_geom 7 bend3])
              0 (mk_geom 7 bend3) 0 2 eq_refl ltac:(lia))
    as (r & evs & Hv & _ & Hord & _).
  exists r, evs. split; [exact Hv|]. apply Hord. reflexivity.
Defined.

(** ** A chord shorter than the relative zero *)

(** C8 (amended).  For a span that passes the degeneracy guard and whose
    chord is shorter than the relative zero, the simplicity test is not
    made, the notice is pushed, the validator returns (no exception), and
    its answer is that of the remaining checks alone, run in order. *)
Theorem validate_constraints_short_chord
    (E : GeoEnv) (w : World) (k : nat) (g : RbGeom) (first last : Z) :
  rb_geoms w !! k = Some g -> first <= last ->
  degenerate E (qgs_geom g) first last = false ->
  (geom_length E (chord (qgs_geom g) first last) < ZERO_RELATIVE E)%Q ->
  exists r evs,
    validate_constraints E w k first last = Ok (r, add_events evs w) /\
    InfoNonSimple (vertexAt (qgs_geom g) first) ∈ evs /\
    (forall b, CallValidateSimplicity b ∉ evs) /\
    verdicts evs = short_circuit (checks_without_simplicity E w g first last) /\
    r = forallb snd (checks_without_simplicity E w g first last).
Proof.
  intros Hg Hle Hdeg Hshort.
  rewrite (validate_constraints_unfold E w k g) by done. rewrite Hdeg.
  assert (Hsc : short_chord E (qgs_geom g) first last = true).
  { unfold short_chord. apply negb_true_iff, Qle_bool_false. exact Hshort. }
  unfold checks_without_simplicity.
  destruct (segments_near E w g first last) as [itself others]. cbv zeta.
  rewrite Hsc. simpl.
  destruct others as [|o os].
  - eexists _, _. split; [reflexivity|]. simpl.
    split; [apply list_elem_of_further, list_elem_of_here|]. split; [|done].
    intros b Hin. check_cases.
  - rewrite !leb_1_length_cons.
    destruct (validate_intersection E (o :: os) (chord (qgs_geom g) first last)) eqn:Hi;
      destruct (polygonize_isSimple E (closed_subline (qgs_geom g) first last)) eqn:Hp;
      destruct (validate_sidedness E (o :: os) (closed_subline (qgs_geom g) first last))
        eqn:Hd;
      simpl; eexists _, _; (split; [reflexivity|]); simpl;
      (split; [apply list_elem_of_further, list_elem_of_here|]);
      (split; [intros b Hin; check_cases|]); done.
Qed.

Lemma validate_constraints_short_chord_witness :
  exists r evs,
    validate_constraints axis_env (mk_world [mk_geom 7 ring5]) 0 2 4 =
      Ok (r, add_events evs (mk_world [mk_geom 7 ring5])) /\
    InfoNonSimple (pt 0 0) ∈ evs.
Proof.
  destruct (validate_constraints_short_chord axis_env (mk_world [mk_geom 7 ring5])
              0 (mk_geom 7 ring5) 2 4 eq_refl ltac:(lia) eq_refl eq_refl)
    as (r & evs & Hv & Hin & _).
  exists r, evs. split; [exact Hv|exact Hin].
Defined.

(** C8, as stated, fails: in the pass over [ring5] the span (2, 4) is
    collapsed, the span (0, 2) then is a candidate whose chord has length
    0, and the validator rejects it at the degeneracy guard without pushing
    a notice. *)
Lemma short_chord_rejected_without_notice :
  let st := {| stack := [(0, 2)];
               world := add_events [CallGetSegmentIntersect 7 2 4;
                                    InfoNonSimple (pt 0 0);
                                    CallValidateConstraints 0 2 4 true;
                                    CallDeleteVertex 7 3 3]
                          (mk_world [{| id := 7; qgs_geom := ring4; is_simplest := true |}]);
               deleted := 1 |} in
  reach axis_env 1%Q 0 ring5 (entry_state axis_env (mk_world [mk_geom 7 ring5]) 0) st /\
  find_farthest_point axis_env ring5 0 2 = Ok (1, 1%Q) /\
  (geom_length axis_env (chord (live (world st) 0) 0 2) < ZERO_RELATIVE axis_env)%Q /\
  validate_constraints axis_env (world st) 0 0 2 = Ok (false, world st).
Proof.
  split; [|repeat split].
  eapply reach_step; [apply reach_start|]. reflexivity.
Qed.

(** ** The initial stack *)

Lemma process_line_entry (E : GeoEnv) (tolerance : Q) (fuel : nat) (w : World)
    (k : nat) (g : RbGeom) :
  rb_geoms w !! k = Some g ->
  process_line E tolerance fuel w k =
    do st <- while_stack E tolerance k (qgs_geom g) fuel (entry_state E w k);
    Ok (deleted st, world st).
Proof.
  intros Hg. unfold process_line, get_geom, entry_state.
  rewrite Hg, (live_lookup w k g Hg). reflexivity.
Qed.

(** C9.  [process_line] starts its loop on [entry_state], whose stack
    holds exactly the span (0, lastIndex) for an open geometry, exactly the
    spans (0, mid) and (mid, lastIndex), pushed in this order, for a closed
    geometry of at least 5 points, and nothing for a closed geometry of fewer
    than 5 points, which is returned with its vertices as they were and a
    count of 0 deleted. *)
Theorem process_line_initial_stack
    (E : GeoEnv) (tolerance : Q) (fuel : nat) (w : World) (k : nat) (g : RbGeom) :
  rb_geoms w !! k = Some g ->
  let num_points := Z.of_nat (length (qgs_geom g)) in
  process_line E tolerance fuel w k =
    (do st <- while_stack E tolerance k (qgs_geom g) fuel (entry_state E w k);
     Ok (deleted st, world st)) /\
  (isClosed E (qgs_geom g) = false ->
     stack (entry_state E w k) = [(0, num_points - 1)]) /\
  (isClosed E (qgs_geom g) = true -> 5 <= num_points ->
     stack (entry_state E w k) = [(num_points / 2, num_points - 1); (0, num_points / 2)]) /\
  (isClosed E (qgs_geom g) = true -> num_points < 5 ->
     stack (entry_state E w k) = [] /\
     process_line E tolerance fuel w k = Ok (0, set_is_simplest k true w) /\
     live (set_is_simplest k true w) k = qgs_geom g).
Proof.
  intros Hg num_points. split; [now apply process_line_entry|].
  unfold entry_state. simpl. rewrite (live_lookup w k g Hg). unfold init_stack.
  fold num_points.
  split; [intros ->; reflexivity|].
  split.
  - intros -> H5. destruct (Z.leb_spec 5 num_points); [reflexivity|lia].
  - intros Hc H5. split; [rewrite Hc; destruct (Z.leb_spec 5 num_points); [lia|done]|].
    split.
    + rewrite (process_line_entry E tolerance fuel w k g Hg).
      unfold entry_state. rewrite (live_lookup w k g Hg). unfold init_stack.
      fold num_points. rewrite Hc.
      destruct (Z.leb_spec 5 num_points); [lia|]. destruct fuel; reflexivity.
    + unfold live. now rewrite (set_is_simplest_lookup k true w g Hg).
Qed.

Lemma process_line_initial_stack_witness :
  stack (entry_state axis_env (mk_world [mk_geom 7 ring5]) 0) = [(2, 4); (0, 2)].
Proof.
  destruct (process_line_initial_stack axis_env 1%Q 10 (mk_world [mk_geom 7 ring5])
              0 (mk_geom 7 ring5) eq_refl) as (_ & _ & Hclosed & _).
  apply Hclosed; [reflexivity|simpl; lia].
Defined.

(** ** The treatment of a popped span *)

Lemma chain_bounds (ub : Z) (st : list (Z * Z)) :
  chain ub st -> Forall (fun s => 0 <= fst s /\ snd s <= ub) st.
Proof.
  revert ub. induction st as [|[f l] below IH]; intros ub Hc; [constructor|].
  simpl in Hc. destruct Hc as (Hf & Hl & Hc). constructor; [done|].
  eapply Forall_impl; [apply (IH _ Hc)|]. simpl. intros [f' l'] [? ?]. simpl in *. lia.
Qed.

Lemma chain_ordered (ub : Z) (st : list (Z * Z)) : chain ub st -> ordered_spans st.
Proof.
  revert ub. induction st as [|[f l] below IH]; intros ub Hc; [done|].
  simpl in Hc. destruct Hc as (Hf & Hl & Hc). simpl. split; [|eauto].
  eapply Forall_impl; [apply (chain_bounds _ _ Hc)|].
  intros [f' l'] [? ?]. simpl in *. lia.
Qed.

(** In a state of the loop, the live geometry and the copy agree on the
    vertices of every span on the stack. *)
Lemma loop_inv_span_valid (E : GeoEnv) (k : nat) (pts : QgsLineString) (w0 : World)
    (ub : Z) (st : LoopState) (f l i : Z) :
  loop_inv E k pts w0 ub st -> (f, l) ∈ stack st -> f <= i <= l ->
  0 <= i < Z.of_nat (length (live (world st) k)) /\
  live (world st) k !! Z.to_nat i = pts !! Z.to_nat i.
Proof.
  intros Hinv Hin Hi.
  pose proof (chain_bounds _ _ (inv_chain _ _ _ _ _ _ Hinv)) as Hb.
  rewrite Forall_forall in Hb. specialize (Hb _ Hin). simpl in Hb.
  pose proof (inv_ub _ _ _ _ _ _ Hinv) as Hub.
  pose proof (inv_prefix _ _ _ _ _ _ Hinv) as Hpre.
  split; [lia|].
  rewrite <- (lookup_take_lt (live (world st) k) (Z.to_nat (ub + 1))) by lia.
  rewrite Hpre. apply lookup_take_lt. lia.
Qed.

(** C2.  In a state the loop of [process_line] goes through, for the popped
    span (first, last) with more than two points: the farthest point found
    is an interior vertex at the greatest distance from the chord, the one
    of lowest index among those at that distance.  If its distance is at
    most the tolerance the span is submitted to the validator, and when the
    validator accepts, the spatial index is asked to delete the vertices
    first+1 to last-1, the live geometry loses exactly these vertices (which
    are those of the copy) and the count of deleted vertices grows by
    last - first - 1.  If its distance exceeds the tolerance the spans
    (first, farthest) and (farthest, last) are pushed, in this order, and
    nothing else changes. *)
Theorem process_line_span_step
    (E : GeoEnv) (tolerance : Q) (w : World) (k : nat) (g : RbGeom)
    (st : LoopState) (first last : Z) (rest : list (Z * Z)) :
  rb_geoms w !! k = Some g ->
  reach E tolerance k (qgs_geom g) (entry_state E w k) st ->
  stack st = (first, last) :: rest ->
  first + 1 < last ->
  exists fi fd,
    find_farthest_point E (qgs_geom g) first last = Ok (fi, fd) /\
    first < fi < last /\
    (chord_dist E (qgs_geom g) first last fi == fd)%Q /\
    (forall i, first < i < last -> (chord_dist E (qgs_geom g) first last i <= fd)%Q) /\
    (forall i, first < i < fi -> (chord_dist E (qgs_geom g) first last i < fd)%Q) /\
    ((fd <= tolerance)%Q ->
       exists r evs st',
         validate_constraints E (world st) k first last =
           Ok (r, add_events evs (world st)) /\
         loop_step E tolerance k (qgs_geom g) st = Some (Ok st') /\
         (exists evs',
            trace (world st') =
              trace (world st) ++ evs ++ CallValidateConstraints k first last r :: evs') /\
         (r = true ->
            stack st' = rest /\
            trace (world st') =
              trace (world st) ++ evs ++
              [CallValidateConstraints k first last true;
               CallDeleteVertex (id g) (first + 1) (last - 1)] /\
            live (world st') k =
              take (Z.to_nat (first + 1)) (live (world st) k) ++
              drop (Z.to_nat last) (live (world st) k) /\
            take (Z.to_nat (last + 1)) (live (world st) k) =
              take (Z.to_nat (last + 1)) (qgs_geom g) /\
            Z.of_nat (length (live (world st') k)) =
              Z.of_nat (length (live (world st) k)) - (last - first - 1) /\
            deleted st' = deleted st + (last - first - 1))) /\
    ((tolerance < fd)%Q ->
       loop_step E tolerance k (qgs_geom g) st =
         Some (Ok {| stack := (fi, last) :: (first, fi) :: rest;
                     world := world st; deleted := deleted st |})).
Proof.
  intros Hg Hreach Hstack Hlong.
  destruct (reach_inv E tolerance k _ _ _ _ _ (entry_inv E w k g Hg) Hreach) as (ub & Hinv).
  destruct st as [stk wst n]. simpl in *. subst stk.
  pose proof Hinv as [Hchain Hub Hpre _ _ Hcount Hdel [g' Hg'] _ _ _ _ _ _ _ Hid].
  simpl in *. destruct Hchain as (Hf & Hl & _).
  rewrite (live_lookup wst k g' Hg') in *.
  rewrite Hg', (set_is_simplest_lookup k true w g Hg) in Hid. simpl in Hid.
  inversion Hid as [Hid'].
  assert (Hlast : last < Z.of_nat (length (qgs_geom g))) by lia.
  destruct (find_farthest_point_spec E (qgs_geom g) first last)
    as (fi & fd & Hfp & Hfi & Heq & Hmax & Hlow); [lia..|].
  exists fi, fd. do 5 (split; [done|]).
  unfold loop_step. simpl.
  destruct (loop_body_cases E tolerance k (qgs_geom g) first last rest wst n g' Hg' Hf Hlast)
    as [[Hshort _]|(_ & fi' & fd' & Hfp' & _ & Hcases)]; [lia|].
  rewrite Hfp in Hfp'. inversion Hfp'; subst fi' fd'. clear Hfp'.
  destruct Hcases as [[Htol Hbody]|[(Htol & evs & Hv & _ & _ & Hbody)
                                   |(Htol & evs & Hv & _ & Hbody)]].
  - apply Qle_bool_false in Htol. split.
    + intros Hle. exfalso. now apply (Qlt_not_le _ _ Htol).
    + intros _. now rewrite Hbody.
  - apply Qle_bool_iff in Htol. split.
    2:{ intros Hlt. exfalso. now apply (Qlt_not_le _ _ Hlt). }
    intros _. eexists true, evs, _. split; [exact Hv|]. split; [now rewrite Hbody|].
    simpl. split.
    { now exists [CallDeleteVertex (id g') (first + 1) (last - 1)]. }
    intros _. split; [done|]. split; [now rewrite Hid'|].
    destruct (remove_vertices_interior (qgs_geom g') first last) as (Hrm & Hlen & _);
      [lia..|].
    assert (Hk : (k < length (rb_geoms wst))%nat) by now apply lookup_lt_Some in Hg'.
    unfold live. simpl. rewrite list_lookup_insert_eq by done. simpl.
    split; [exact Hrm|]. split; [|split; [exact Hlen|done]].
    apply (take_le_eq _ _ _ _ Hpre). lia.
  - apply Qle_bool_iff in Htol. split.
    2:{ intros Hlt. exfalso. now apply (Qlt_not_le _ _ Hlt). }
    intros _. eexists false, evs, _. split; [exact Hv|]. split; [now rewrite Hbody|].
    simpl. split; [|discriminate].
    exists [].
    destruct (set_is_simplest_fields k false (add_events
                (evs ++ [CallValidateConstraints k first last false]) wst))
      as (_ & Ht & _).
    rewrite Ht. reflexivity.
Qed.

Lemma process_line_span_step_witness :
  exists fi fd,
    find_farthest_point axis_env bend5 0 4 = Ok (fi, fd) /\ 0 < fi < 4.
Proof.
  destruct (process_line_span_step axis_env 1%Q (mk_world [mk_geom 7 bend5]) 0
              (mk_geom 7 bend5) (entry_state axis_env (mk_world [mk_geom 7 bend5]) 0)
              0 4 [] eq_refl (reach_start _ _ _ _ _) eq_refl ltac:(lia))
    as (fi & fd & Hfp & Hfi & _).
  exists fi, fd. split; [exact Hfp|exact Hfi].
Defined.

(** The lowest index wins a tie: the three vertices at the top of [bend5]
    are at the same distance from the chord. *)
Example find_farthest_point_tie :
  find_farthest_point axis_env bend5 0 4 = Ok (1, 2%Q).
Proof. reflexivity. Qed.

(** ** The discipline of the stack *)

(** C10.  In every state the loop of [process_line] goes through, the
    spans on the stack lie left to right from bottom to top, each ending
    where or before every span above it begins, and every vertex number of
    a span on the stack is a valid vertex number of the live geometry, where
    it names the vertex it names in the copy taken on entry.  The span
    popped next therefore is the rightmost, and an iteration of the loop
    changes no vertex of the live geometry up to the first vertex of the
    popped span, hence none of those of the spans that stay on the stack. *)
Theorem process_line_stack_discipline
    (E : GeoEnv) (tolerance : Q) (w : World) (k : nat) (g : RbGeom) (st : LoopState) :
  rb_geoms w !! k = Some g ->
  reach E tolerance k (qgs_geom g) (entry_state E w k) st ->
  ordered_spans (stack st) /\
  (forall f l i, (f, l) ∈ stack st -> f <= i <= l ->
     0 <= i < Z.of_nat (length (live (world st) k)) /\
     live (world st) k !! Z.to_nat i = qgs_geom g !! Z.to_nat i) /\
  (forall first last rest,
     stack st = (first, last) :: rest ->
     Forall (fun s => snd s <= first) rest /\
     exists st',
       loop_step E tolerance k (qgs_geom g) st = Some (Ok st') /\
       (exists pushed, stack st' = pushed ++ rest) /\
       take (Z.to_nat (first + 1)) (live (world st') k) =
         take (Z.to_nat (first + 1)) (live (world st) k) /\
       (live (world st') k = live (world st) k \/
        live (world st') k =
          take (Z.to_nat (first + 1)) (live (world st) k) ++
          drop (Z.to_nat last) (live (world st) k))).
Proof.
  intros Hg Hreach.
  destruct (reach_inv E tolerance k _ _ _ _ _ (entry_inv E w k g Hg) Hreach) as (ub & Hinv).
  split; [apply (chain_ordered ub), Hinv|].
  split; [intros f l i; apply (loop_inv_span_valid E k _ _ ub st f l i Hinv)|].
  intros first last rest Hstack.
  pose proof (chain_ordered _ _ (inv_chain _ _ _ _ _ _ Hinv)) as Hord.
  rewrite Hstack in Hord. simpl in Hord. split; [apply Hord|].
  destruct st as [stk wst n]. simpl in *. subst stk.
  pose proof Hinv as [Hchain Hub Hpre _ _ Hcount Hdel [g' Hg'] _ _ _ _ _].
  simpl in *. destruct Hchain as (Hf & Hl & _).
  rewrite (live_lookup wst k g' Hg') in *.
  assert (Hlast : last < Z.of_nat (length (qgs_geom g))) by lia.
  unfold loop_step. simpl.
  destruct (loop_body_cases E tolerance k (qgs_geom g) first last rest wst n g' Hg' Hf Hlast)
    as [[Hshort Hbody]|(Hlong & fi & fd & Hfp & _ & Hcases)].
  { eexists. split; [now rewrite Hbody|]. simpl. split; [now exists []|].
    rewrite (live_lookup wst k g' Hg'). split; [done|now left]. }
  destruct Hcases as [[Htol Hbody]|[(Htol & evs & Hv & _ & _ & Hbody)
                                   |(Htol & evs & Hv & _ & Hbody)]].
  - eexists. split; [now rewrite Hbody|]. simpl.
    split; [now exists [(fi, last); (first, fi)]|].
    rewrite (live_lookup wst k g' Hg'). split; [done|now left].
  - eexists. split; [now rewrite Hbody|]. simpl. split; [now exists []|].
    destruct (remove_vertices_interior (qgs_geom g') first last) as (Hrm & _ & _ & _ & Htk);
      [lia..|].
    assert (Hk : (k < length (rb_geoms wst))%nat) by now apply lookup_lt_Some in Hg'.
    unfold live. simpl. rewrite list_lookup_insert_eq by done. simpl.
    split; [exact Htk|right; exact Hrm].
  - eexists. split; [now rewrite Hbody|]. simpl.
    split; [now exists [(fi, last); (first, fi)]|].
    assert (Hlive : live (set_is_simplest k false (add_events
                      (evs ++ [CallValidateConstraints k first last false]) wst)) k
                    = live wst k).
    { unfold live.
      rewrite (set_is_simplest_lookup k false
                 (add_events (evs ++ [CallValidateConstraints k first last false]) wst)
                 g' Hg').
      simpl. now rewrite Hg'. }
    rewrite Hlive, (live_lookup wst k g' Hg'). split; [done|now left].
Qed.

Lemma process_line_stack_discipline_witness :
  ordered_spans (stack (entry_state axis_env (mk_world [mk_geom 7 ring5]) 0)).
Proof.
  apply (process_line_stack_discipline axis_env 1%Q (mk_world [mk_geom 7 ring5]) 0
           (mk_geom 7 ring5) _ eq_refl (reach_start _ _ _ _ _)).
Defined.

(** ** What a call of [process_line] does *)

Section Passes.

Variable E : GeoEnv.
Variable tolerance : Q.

Lemma while_stack_reach (k : nat) (pts : QgsLineString) (fuel : nat) :
  forall st st', while_stack E tolerance k pts fuel st = Ok st' ->
    reach E tolerance k pts st st' /\ stack st' = [].
Proof.
  induction fuel as [|fuel IH]; intros st st' Hw; simpl in Hw.
  - destruct (loop_step E tolerance k pts st) eqn:Hs; [discriminate|].
    inversion Hw; subst. split; [constructor|].
    unfold loop_step in Hs. destruct (stack st') as [|[? ?] ?]; [done|discriminate].
  - destruct (loop_step E tolerance k pts st) as [r|] eqn:Hs.
    + apply res_bind_Ok in Hw as (st1 & -> & Hw).
      destruct (IH _ _ Hw) as [Hr Hnil]. split; [|done].
      eapply reach_trans; [|exact Hr]. eapply reach_step; [constructor|exact Hs].
    + inversion Hw; subst. split; [constructor|].
      unfold loop_step in Hs. destruct (stack st') as [|[? ?] ?]; [done|discriminate].
Qed.

Lemma isClosed_ends (ls ls' : QgsLineString) :
  head ls' = head ls -> last ls' = last ls -> isClosed E ls' = isClosed E ls.
Proof. intros Hh Hl. unfold isClosed. now rewrite Hh, Hl. Qed.

Lemma loop_inv_line_post (k : nat) (g : RbGeom) (w : World) (ub : Z) (st : LoopState) :
  rb_geoms w !! k = Some g ->
  loop_inv E k (qgs_geom g) (set_is_simplest k true w) ub st ->
  exists evs, line_post E k g w (world st) (deleted st) evs.
Proof.
  intros Hg [_ _ _ Hhead Hlast Hcount Hdel [g' Hg'] Hoth Hres Hpolls
             (evs & Htr & Hsimp & Hline) Hring Hlength Hsub].
  rewrite (live_lookup _ k g' Hg') in *.
  destruct (set_is_simplest_fields k true w) as (Hr & Ht & Hp).
  exists evs. constructor.
  - exists g'. split; [done|]. split; [|split; [done|]].
    + repeat split; try done. intros Hc H4. destruct (Hring Hc); lia.
    + rewrite Hg' in Hsimp. simpl in Hsimp. congruence.
  - intros j Hj. rewrite Hoth by done. now apply set_is_simplest_other.
  - now rewrite Hlength, set_is_simplest_length.
  - congruence.
  - congruence.
  - now rewrite Htr, Ht.
  - done.
  - done.
Qed.

Lemma process_line_post (fuel : nat) (w w' : World) (k : nat) (g : RbGeom) (d : Z) :
  rb_geoms w !! k = Some g ->
  process_line E tolerance fuel w k = Ok (d, w') ->
  exists evs, line_post E k g w w' d evs.
Proof.
  intros Hg Hp. rewrite (process_line_entry E tolerance fuel w k g Hg) in Hp.
  apply res_bind_Ok in Hp as (st & Hw & Heq). inversion Heq; subst.
  apply while_stack_reach in Hw as [Hreach _].
  destruct (reach_inv E tolerance k _ _ _ _ _ (entry_inv E w k g Hg) Hreach) as (ub & Hinv).
  now apply (loop_inv_line_post k g w ub st).
Qed.

Lemma process_line_total (fuel : nat) (w : World) (k : nat) (g : RbGeom) :
  rb_geoms w !! k = Some g ->
  (2 * length (qgs_geom g) + 1 <= fuel)%nat ->
  exists d w', process_line E tolerance fuel w k = Ok (d, w').
Proof.
  intros Hg Hfuel.
  destruct (process_line_ends E tolerance fuel w k g Hg Hfuel) as (st & ub & Hp & _).
  eauto.
Qed.

(** ** Counting vertices *)

Lemma sum_list_with_insert {A : Type} (f : A -> nat) (l : list A) (i : nat) (x y : A) :
  l !! i = Some x ->
  (sum_list_with f (<[i := y]> l) + f x = sum_list_with f l + f y)%nat.
Proof.
  revert i. induction l as [|a l IH]; intros [|i] Hx; simpl in *; try discriminate.
  - inversion Hx; subst. lia.
  - specialize (IH i Hx). lia.
Qed.

Lemma sum_list_with_lookup {A : Type} (f : A -> nat) (l : list A) (i : nat) (x : A) :
  l !! i = Some x -> (f x <= sum_list_with f l)%nat.
Proof.
  intros Hx. apply sum_list_with_in. now apply list_elem_of_lookup_2 in Hx.
Qed.

Lemma lookup_update_eq {A : Type} (l l' : list A) (k : nat) (y : A) :
  length l' = length l -> l' !! k = Some y ->
  (forall j, j <> k -> l' !! j = l !! j) -> l' = <[k := y]> l.
Proof.
  intros Hlen Hk Hoth. apply list_eq. intros i.
  destruct (decide (i = k)) as [->|Hne].
  - rewrite list_lookup_insert_eq; [done|]. apply lookup_lt_Some in Hk. lia.
  - rewrite list_lookup_insert_ne by done. now apply Hoth.
Qed.

Lemma line_post_total (k : nat) (g : RbGeom) (w w' : World) (d : Z) (evs : list Event) :
  rb_geoms w !! k = Some g ->
  line_post E k g w w' d evs ->
  Z.of_nat (total_vertices w') + d = Z.of_nat (total_vertices w).
Proof.
  intros Hg [(g' & Hg' & _ & Hcount & _) Hoth Hlen _ _ _ _ _].
  unfold total_vertices.
  rewrite (lookup_update_eq (rb_geoms w) (rb_geoms w') k g' Hlen Hg' Hoth).
  pose proof (sum_list_with_insert (fun g => length (qgs_geom g)) (rb_geoms w) k g g' Hg).
  simpl in *. lia.
Qed.

(** ** Composing the parts of a run *)

Lemma shrunk_refl (g : RbGeom) : shrunk E g g.
Proof. repeat split; done. Qed.

Lemma shrunk_flag (g g' : RbGeom) : qgs_geom g' = qgs_geom g -> shrunk E g g'.
Proof. intros H. unfold shrunk. rewrite H. repeat split; done. Qed.

Lemma shrunk_trans (g1 g2 g3 : RbGeom) : shrunk E g1 g2 -> shrunk E g2 g3 -> shrunk E g1 g3.
Proof.
  intros (Hs1 & Hh1 & Hl1 & Hr1) (Hs2 & Hh2 & Hl2 & Hr2).
  split; [by etrans|]. split; [congruence|]. split; [congruence|].
  intros Hc H4. apply Hr2; [|now apply Hr1].
  now rewrite (isClosed_ends _ _ Hh1 Hl1).
Qed.

Lemma worlds_shrunk_same (w w' : World) : rb_geoms w' = rb_geoms w -> worlds_shrunk E w w'.
Proof.
  intros H. split; [now rewrite H|]. intros j g Hg. exists g. rewrite H.
  split; [done|apply shrunk_refl].
Qed.

Lemma worlds_shrunk_trans (w1 w2 w3 : World) :
  worlds_shrunk E w1 w2 -> worlds_shrunk E w2 w3 -> worlds_shrunk E w1 w3.
Proof.
  intros [Hl1 H1] [Hl2 H2]. split; [congruence|].
  intros j g Hg. destruct (H1 j g Hg) as (g2 & Hg2 & Hs2).
  destruct (H2 j g2 Hg2) as (g3 & Hg3 & Hs3).
  exists g3. split; [done|]. now apply (shrunk_trans g g2 g3).
Qed.

Lemma run_rel_book (w w' : World) (evs : list Event) :
  rb_geoms w' = rb_geoms w -> trace w' = trace w ++ evs ->
  process_line_calls evs = [] -> integrity_calls evs = [] -> run_rel E w w' evs 0.
Proof.
  intros Hg Ht Hc Hi. constructor.
  - now apply worlds_shrunk_same.
  - unfold total_vertices. rewrite Hg. lia.
  - lia.
  - done.
  - intros k g Hk _. rewrite Hg, Hc. split; [done|]. apply not_elem_of_nil.
  - done.
Qed.

Lemma integrity_calls_app (a b : list Event) :
  integrity_calls (a ++ b) = integrity_calls a ++ integrity_calls b.
Proof. apply omap_app. Qed.

Lemma process_line_calls_app (a b : list Event) :
  process_line_calls (a ++ b) = process_line_calls a ++ process_line_calls b.
Proof. apply omap_app. Qed.

Lemma pass_deletions_app (a b : list Event) :
  pass_deletions (a ++ b) = pass_deletions a ++ pass_deletions b.
Proof. apply omap_app. Qed.

Lemma run_rel_trans (w1 w2 w3 : World) (evs1 evs2 : list Event) (d1 d2 : Z) :
  run_rel E w1 w2 evs1 d1 -> run_rel E w2 w3 evs2 d2 ->
  run_rel E w1 w3 (evs1 ++ evs2) (d1 + d2).
Proof.
  intros [Hs1 Ht1 Hn1 Htr1 Hk1 Hq1] [Hs2 Ht2 Hn2 Htr2 Hk2 Hq2]. constructor.
  - now apply (worlds_shrunk_trans w1 w2 w3).
  - lia.
  - lia.
  - now rewrite Htr2, Htr1, app_assoc.
  - intros k g Hg Hsim. destruct (Hk1 k g Hg Hsim) as [Hg2 Hc1].
    destruct (Hk2 k g Hg2 Hsim) as [Hg3 Hc2]. split; [done|].
    rewrite process_line_calls_app. rewrite elem_of_app. tauto.
  - now rewrite integrity_calls_app, Hq1, Hq2.
Qed.

Lemma line_events_quiet (evs : list Event) :
  forallb is_line_event evs = true ->
  process_line_calls evs = [] /\ pass_deletions evs = [] /\ integrity_calls evs = [].
Proof.
  induction evs as [|e evs IH]; [done|]. simpl. intros H.
  apply andb_true_iff in H as [He H]. destruct (IH H) as (IH1 & IH2 & IH3).
  unfold process_line_calls, pass_deletions, integrity_calls in *. simpl.
  destruct e; simpl in *; try discriminate; rewrite ?IH1, ?IH2, ?IH3; done.
Qed.

Lemma line_post_run_rel (k : nat) (g : RbGeom) (w w1 w' : World) (d : Z)
    (evs : list Event) :
  rb_geoms w !! k = Some g -> is_simplest g = false ->
  rb_geoms w1 = rb_geoms w -> trace w1 = trace w ++ [CallProcessLine k] ->
  line_post E k g w1 w' d evs ->
  run_rel E w w' (CallProcessLine k :: evs) d.
Proof.
  intros Hg Hns Hg1 Ht1 Hpost.
  assert (Hg' : rb_geoms w1 !! k = Some g) by now rewrite Hg1.
  pose proof (line_post_total k g w1 w' d evs Hg' Hpost) as Htot.
  destruct Hpost as [(g' & Hk' & Hsh & Hcount & _) Hoth Hlen _ _ Htr Hev Hnn].
  destruct (line_events_quiet evs Hev) as (Hcalls & _ & Hic).
  constructor.
  - split; [congruence|]. intros j gj Hj.
    destruct (decide (j = k)) as [->|Hne].
    + exists g'. split; [done|]. congruence.
    + exists gj. rewrite Hoth, Hg1 by done. split; [done|apply shrunk_refl].
  - unfold total_vertices in *. rewrite Hg1 in Htot. exact Htot.
  - done.
  - rewrite Htr, Ht1. now rewrite <- app_assoc.
  - intros j gj Hj Hsim.
    assert (Hne : j <> k) by (intros ->; congruence).
    rewrite Hoth, Hg1 by done. split; [done|].
    change (process_line_calls (CallProcessLine k :: evs))
      with (k :: process_line_calls evs).
    rewrite Hcalls, list_elem_of_singleton. done.
  - exact Hic.
Qed.

(** What the loop over the geometries of one pass did. *)
Lemma for_geoms_post (fuel : nat) (ks : list nat) :
  forall (w w' : World) (n n' : Z),
    for_geoms E tolerance fuel ks w n = Ok (n', w') ->
    exists evs,
      run_rel E w w' evs (n' - n) /\
      rb_results w' = rb_results w /\
      pass_deletions evs = [].
Proof.
  induction ks as [|k ks IH]; intros w w' n n' Hfor; simpl in Hfor.
  - inversion Hfor; subst. exists []. split; [|done].
    replace (n' - n') with 0 by lia.
    apply run_rel_book; [done| |done..]. now rewrite app_nil_r.
  - set (wb := {| rb_geoms := rb_geoms w; rb_results := rb_results w;
                  trace := trace w; polls := S (polls w) |}) in *.
    assert (Hbook : run_rel E w wb [] 0).
    { apply run_rel_book; [done| |done..]. simpl. now rewrite app_nil_r. }
    destruct (isCanceled E (polls w)).
    { inversion Hfor; subst. exists []. split; [|done].
      replace (n' - n') with 0 by lia. exact Hbook. }
    apply res_bind_Ok in Hfor as (g & Hget & Hfor).
    unfold get_geom in Hget. simpl in Hget.
    destruct (rb_geoms w !! k) as [g0|] eqn:Hg; [|discriminate].
    inversion Hget; subst g0. clear Hget.
    destruct (is_simplest g) eqn:Hsim; simpl in Hfor.
    + destruct (IH _ _ _ _ Hfor) as (evs & Hrel & Hres & Hpd).
      exists evs. split; [|done].
      replace (n' - n) with (0 + (n' - n)) by lia.
      apply (run_rel_trans w wb w' [] evs); done.
    + apply res_bind_Ok in Hfor as ([d w1] & Hpl & Hfor).
      destruct (process_line_post fuel (log (CallProcessLine k) wb) w1 k g d Hg Hpl)
        as (evs1 & Hpost).
      pose proof (lp_results _ _ _ _ _ _ _ Hpost) as Hres1.
      destruct (line_events_quiet evs1 (lp_events _ _ _ _ _ _ _ Hpost)) as (_ & Hpd1 & _).
      pose proof (line_post_run_rel k g w (log (CallProcessLine k) wb) w1 d evs1
                    Hg Hsim eq_refl eq_refl Hpost) as Hrel1.
      destruct (IH _ _ _ _ Hfor) as (evs2 & Hrel2 & Hres2 & Hpd2).
      exists ((CallProcessLine k :: evs1) ++ evs2). split; [|split].
      * replace (n' - n) with (d + (n' - (n + d))) by lia.
        now apply (run_rel_trans w w1 w').
      * now rewrite Hres2, Hres1.
      * rewrite pass_deletions_app, Hpd2.
        change (pass_deletions (CallProcessLine k :: evs1)) with (pass_deletions evs1).
        now rewrite Hpd1.
Qed.

Lemma for_geoms_total (fuel : nat) (ks : list nat) :
  forall (w : World) (n : Z),
    Forall (fun k => (k < length (rb_geoms w))%nat) ks ->
    (2 * total_vertices w + 1 <= fuel)%nat ->
    exists n' w', for_geoms E tolerance fuel ks w n = Ok (n', w').
Proof.
  induction ks as [|k ks IH]; intros w n Hks Hfuel; simpl; [eauto|].
  inversion Hks as [|? ? Hk Hks']; subst.
  destruct (isCanceled E (polls w)); [eauto|].
  unfold get_geom. simpl.
  destruct (lookup_lt_is_Some_2 _ _ Hk) as [g Hg]. rewrite Hg. simpl.
  set (wb := {| rb_geoms := rb_geoms w; rb_results := rb_results w;
                trace := trace w; polls := S (polls w) |}).
  destruct (is_simplest g); simpl.
  - apply (IH wb); done.
  - pose proof (sum_list_with_lookup (fun g => length (qgs_geom g)) _ _ _ Hg) as Hle.
    simpl in Hle.
    destruct (process_line_total fuel (log (CallProcessLine k) wb) k g Hg) as (d & w1 & Hpl).
    { unfold total_vertices in Hfuel. lia. }
    rewrite Hpl. simpl.
    destruct (process_line_post fuel (log (CallProcessLine k) wb) w1 k g d Hg Hpl)
      as (evs1 & Hpost).
    pose proof (line_post_total k g (log (CallProcessLine k) wb) w1 d evs1 Hg Hpost)
      as Htot.
    pose proof (lp_nonneg _ _ _ _ _ _ _ Hpost) as Hnn.
    pose proof (lp_length _ _ _ _ _ _ _ Hpost) as Hlen.
    apply IH.
    + rewrite Hlen. exact Hks'.
    + unfold total_vertices in *. simpl in *. lia.
Qed.

(** What the passes did. *)
Lemma simplify_passes_post (fuel passes : nat) :
  forall (w w' : World),
    simplify_passes E tolerance fuel passes w = Ok w' ->
    exists evs, passes_post E w w' evs.
Proof.
  induction passes as [|passes IH]; intros w w' Hp; simpl in Hp; [discriminate|].
  apply res_bind_Ok in Hp as ([nbr w2] & Hfor & Hp).
  destruct (for_geoms_post fuel _ _ _ _ _ Hfor) as (evs1 & Hrel1 & Hres1 & Hpd1).
  simpl in Hres1.
  assert (Hnn : 0 <= nbr) by (pose proof (rr_nonneg _ _ _ _ _ Hrel1); lia).
  set (w1 := log (InfoIteration (nbr_pass (add_pass (rb_results w))))
               (set_results (add_pass (rb_results w)) w)) in *.
  assert (Hrel0 : run_rel E w w1 [InfoIteration (nbr_pass (add_pass (rb_results w)))] 0).
  { apply run_rel_book; done. }
  assert (Hrel3 : run_rel E w2 (log (InfoVerticeDeleted nbr) w2) [InfoVerticeDeleted nbr] 0).
  { apply run_rel_book; done. }
  pose proof (run_rel_trans _ _ _ _ _ _ _
                (run_rel_trans _ _ _ _ _ _ _ Hrel0 Hrel1) Hrel3) as Hrel.
  replace (0 + (nbr - 0) + 0) with nbr in Hrel by lia.
  assert (HA : exists evsA,
             run_rel E w (log (InfoVerticeDeleted nbr) w2) evsA nbr /\
             pass_deletions evsA = [nbr]).
  { exists (([InfoIteration (nbr_pass (add_pass (rb_results w)))] ++ evs1) ++
            [InfoVerticeDeleted nbr]).
    split; [exact Hrel|]. rewrite !pass_deletions_app, Hpd1. reflexivity. }
  destruct HA as (evsA & HrelA & Hpd). clear Hrel Hrel0 Hrel1 Hrel3.
  destruct (Z.eqb_spec nbr 0) as [Hz|Hnz].
  - inversion Hp; subst w'. exists evsA. constructor.
    + rewrite Hpd. simpl. replace (nbr + 0) with nbr by lia. exact HrelA.
    + exists []. rewrite Hpd. subst nbr. done.
    + rewrite Hpd. simpl. rewrite Hres1. simpl. lia.
    + rewrite Hpd. simpl. rewrite Hres1. simpl. lia.
    + simpl. rewrite Hres1. done.
  - destruct (IH _ _ Hp) as (evs2 & [Hrel2 (ds & Hds & Hpos) Hdel2 Hpass2 Hf2]).
    simpl in Hdel2, Hpass2, Hf2. rewrite Hres1 in Hdel2, Hpass2, Hf2.
    simpl in Hdel2, Hpass2, Hf2.
    assert (Hbook : run_rel E (log (InfoVerticeDeleted nbr) w2)
              (set_results (add_deleted nbr (rb_results (log (InfoVerticeDeleted nbr) w2)))
                 (log (InfoVerticeDeleted nbr) w2)) [] 0).
    { apply run_rel_book; [done| |done..]. simpl. now rewrite app_nil_r. }
    pose proof (run_rel_trans _ _ _ _ _ _ _
                  (run_rel_trans _ _ _ _ _ _ _ HrelA Hbook) Hrel2) as Hall.
    rewrite app_nil_r in Hall.
    exists (evsA ++ evs2). constructor.
    + rewrite pass_deletions_app, Hpd.
      change (sum_Z ([nbr] ++ pass_deletions evs2))
        with (nbr + sum_Z (pass_deletions evs2)).
      replace (nbr + sum_Z (pass_deletions evs2))
        with (nbr + 0 + sum_Z (pass_deletions evs2)) by lia.
      exact Hall.
    + exists (nbr :: ds). rewrite pass_deletions_app, Hpd, Hds. split; [done|].
      constructor; [lia|done].
    + rewrite pass_deletions_app, Hpd.
      change (sum_Z ([nbr] ++ pass_deletions evs2))
        with (nbr + sum_Z (pass_deletions evs2)). lia.
    + rewrite pass_deletions_app, Hpd, length_app. simpl length. lia.
    + done.
Qed.

Lemma simplify_passes_total (fuel passes : nat) :
  forall (w : World),
    (total_vertices w < passes)%nat ->
    (2 * total_vertices w + 1 <= fuel)%nat ->
    exists w', simplify_passes E tolerance fuel passes w = Ok w'.
Proof.
  induction passes as [|passes IH]; intros w Hpasses Hfuel; [lia|]. simpl.
  match goal with
  | |- context [for_geoms E tolerance fuel ?ks ?w0 0] =>
      destruct (for_geoms_total fuel ks w0 0) as (nbr & w2 & Hfor)
  end.
  { rewrite Forall_forall. intros k Hk. apply elem_of_seq in Hk. simpl. lia. }
  { exact Hfuel. }
  rewrite Hfor. simpl.
  destruct (for_geoms_post fuel _ _ _ _ _ Hfor) as (evs1 & Hrel1 & _ & _).
  pose proof (rr_total _ _ _ _ _ Hrel1) as Htot.
  pose proof (rr_nonneg _ _ _ _ _ Hrel1) as Hnn.
  unfold total_vertices in *. simpl in *.
  destruct (Z.eqb_spec nbr 0) as [Hz|Hnz]; [eauto|].
  apply IH; simpl; lia.
Qed.

End Passes.

(** ** Every point of a run *)

Section RunPoints.

Variable E : GeoEnv.
Variable tolerance : Q.

Lemma line_post_shrunk (k : nat) (g : RbGeom) (w w' : World) (d : Z) (evs : list Event) :
  rb_geoms w !! k = Some g -> line_post E k g w w' d evs -> worlds_shrunk E w w'.
Proof.
  intros Hg [(g' & Hk' & Hsh & _) Hoth Hlen _ _ _ _ _].
  split; [done|]. intros j gj Hj.
  destruct (decide (j = k)) as [->|Hne].
  - exists g'. split; [done|]. congruence.
  - exists gj. rewrite Hoth by done. split; [done|apply shrunk_refl].
Qed.

Lemma reach_line_post (w : World) (k : nat) (g : RbGeom) (st : LoopState) :
  rb_geoms w !! k = Some g ->
  reach E tolerance k (qgs_geom g) (entry_state E w k) st ->
  exists evs, line_post E k g w (world st) (deleted st) evs.
Proof.
  intros Hg Hreach.
  destruct (reach_inv E tolerance k _ _ _ _ _ (entry_inv E w k g Hg) Hreach) as (ub & Hinv).
  now apply (loop_inv_line_post E k g w ub st).
Qed.

Lemma run_point_shrunk (w0 w : World) :
  run_point E tolerance w0 w -> worlds_shrunk E w0 w.
Proof.
  induction 1 as [|w k st _ IH [g Hg] Hreach|w w' _ IH Hsame].
  - now apply worlds_shrunk_same.
  - rewrite (live_lookup w k g Hg) in Hreach.
    destruct (reach_line_post w k g st Hg Hreach) as (evs & Hpost).
    eapply worlds_shrunk_trans; [exact IH|].
    now apply (line_post_shrunk k g w (world st) (deleted st) evs).
  - eapply worlds_shrunk_trans; [exact IH|]. now apply worlds_shrunk_same.
Qed.

Lemma run_point_trans (w0 w1 w2 : World) :
  run_point E tolerance w0 w1 -> run_point E tolerance w1 w2 ->
  run_point E tolerance w0 w2.
Proof.
  intros H01 H12. induction H12 as [|w k st _ IH Hk Hreach|w w' _ IH Hsame].
  - done.
  - now apply (run_loop E tolerance w0 w k st).
  - now apply (run_book E tolerance w0 w w').
Qed.

Lemma process_line_run_point (fuel : nat) (w0 w w' : World) (k : nat) (d : Z) :
  run_point E tolerance w0 w ->
  process_line E tolerance fuel w k = Ok (d, w') ->
  run_point E tolerance w0 w'.
Proof.
  intros Hrp Hp. unfold process_line in Hp.
  apply res_bind_Ok in Hp as (g & Hget & Hp).
  unfold get_geom in Hget. destruct (rb_geoms w !! k) as [g0|] eqn:Hg; [|discriminate].
  inversion Hget; subst g0.
  apply res_bind_Ok in Hp as (st & Hw & Heq). inversion Heq; subst.
  apply while_stack_reach in Hw as [Hreach _].
  apply (run_loop E tolerance w0 w k st); [done|by eexists|].
  unfold entry_state. now rewrite (live_lookup w k g Hg).
Qed.

Lemma for_geoms_run_point (fuel : nat) (ks : list nat) :
  forall (w0 w w' : World) (n n' : Z),
    run_point E tolerance w0 w ->
    for_geoms E tolerance fuel ks w n = Ok (n', w') ->
    run_point E tolerance w0 w'.
Proof.
  induction ks as [|k ks IH]; intros w0 w w' n n' Hrp Hfor; simpl in Hfor.
  - now inversion Hfor; subst.
  - set (wb := {| rb_geoms := rb_geoms w; rb_results := rb_results w;
                  trace := trace w; polls := S (polls w) |}) in *.
    assert (Hb : run_point E tolerance w0 wb) by now apply (run_book E tolerance w0 w).
    destruct (isCanceled E (polls w)); [now inversion Hfor; subst|].
    apply res_bind_Ok in Hfor as (g & Hget & Hfor).
    destruct (negb (is_simplest g)).
    + apply res_bind_Ok in Hfor as ([d w1] & Hpl & Hfor).
      apply (IH w0 w1 w' (n + d) n'); [|exact Hfor].
      apply (process_line_run_point fuel w0 (log (CallProcessLine k) wb) w1 k d);
        [|exact Hpl].
      now apply (run_book E tolerance w0 wb).
    + now apply (IH w0 wb w' n n').
Qed.

Lemma simplify_passes_run_point (fuel passes : nat) :
  forall (w0 w w' : World),
    run_point E tolerance w0 w ->
    simplify_passes E tolerance fuel passes w = Ok w' ->
    run_point E tolerance w0 w'.
Proof.
  induction passes as [|passes IH]; intros w0 w w' Hrp Hp; simpl in Hp; [discriminate|].
  apply res_bind_Ok in Hp as ([nbr w2] & Hfor & Hp).
  apply for_geoms_run_point with (w0 := w0) in Hfor.
  2:{ now apply (run_book E tolerance w0 w). }
  assert (H3 : run_point E tolerance w0 (log (InfoVerticeDeleted nbr) w2))
    by now apply (run_book E tolerance w0 w2).
  destruct (nbr =? 0).
  - now inversion Hp; subst.
  - eapply IH; [|exact Hp]. eapply run_book; [exact H3|done].
Qed.


End RunPoints.

(** ** The minimal ring *)

(** C3.  For a closed geometry the validator answers false, before any
    other check, when 3 points or fewer would remain after the collapse;
    and in every world a run can be in, a geometry that was closed with at
    least 4 points still is closed with at least 4 points.  The worlds
    [process_line] and [_simplify_lines] return are such worlds. *)
Theorem closed_geometry_keeps_four_points (E : GeoEnv) (tolerance : Q) :
  (forall w k g first last,
     rb_geoms w !! k = Some g -> isClosed E (qgs_geom g) = true ->
     Z.of_nat (length (qgs_geom g)) - (last - first - 1) <= 3 ->
     validate_constraints E w k first last = Ok (false, w)) /\
  (forall w0 w j g,
     run_point E tolerance w0 w -> rb_geoms w0 !! j = Some g ->
     isClosed E (qgs_geom g) = true -> (4 <= length (qgs_geom g))%nat ->
     exists g', rb_geoms w !! j = Some g' /\
                isClosed E (qgs_geom g') = true /\
                (4 <= length (qgs_geom g'))%nat) /\
  (forall fuel w w' k d,
     process_line E tolerance fuel w k = Ok (d, w') -> run_point E tolerance w w') /\
  (forall fuel w w',
     _simplify_lines E tolerance fuel w = Ok w' -> run_point E tolerance w w').
Proof.
  split; [|split; [|split]].
  - intros w k g first last Hg Hc Hle.
    unfold validate_constraints, get_geom. rewrite Hg. simpl. rewrite Hc.
    destruct (Z.leb_spec (Z.of_nat (length (qgs_geom g)) - (last - first - 1)) 3);
      [done|lia].
  - intros w0 w j g Hrp Hg Hc H4.
    destruct (run_point_shrunk E tolerance w0 w Hrp) as [_ Hall].
    destruct (Hall j g Hg) as (g' & Hg' & _ & Hh & Hl & Hring).
    exists g'. split; [done|]. split; [|now apply Hring].
    now rewrite (isClosed_ends E _ _ Hh Hl).
  - intros fuel w w' k d Hp.
    apply (process_line_run_point E tolerance fuel w w w' k d); [constructor|done].
  - intros fuel w w' Hs.
    apply (simplify_passes_run_point E tolerance fuel fuel w w w'); [constructor|done].
Qed.

Lemma closed_geometry_keeps_four_points_witness :
  exists w',
    _simplify_lines axis_env 1%Q 20 (mk_world [mk_geom 7 ring5]) = Ok w' /\
    exists g', rb_geoms w' !! 0%nat = Some g' /\
               isClosed axis_env (qgs_geom g') = true /\
               (4 <= length (qgs_geom g'))%nat.
Proof.
  destruct (closed_geometry_keeps_four_points axis_env 1%Q) as (_ & Hinv & _ & Hrun).
  eexists. split; [vm_compute; reflexivity|].
  apply (Hinv (mk_world [mk_geom 7 ring5]) _ 0%nat (mk_geom 7 ring5)).
  - apply (Hrun 20%nat). vm_compute. reflexivity.
  - reflexivity.
  - reflexivity.
  - simpl. lia.
Defined.

(** ** The geometries a pass goes through *)

Section PassVisits.

Variable E : GeoEnv.
Variable tolerance : Q.





(** When the poll that follows the geometries gone through does not answer
    that the run is cancelled, the pass went through all the geometries. *)
Lemma visits_all (w w' : World) (evs : list Event) (m : nat) :
  visits E w w' evs m -> isCanceled E (polls w + m) = false ->
  m = length (rb_geoms w) /\
  process_line_calls evs = List.filter (pending w) (seq 0 (length (rb_geoms w))).
Proof.
  intros [Hm Hcalls _ Hcan _] Hno.
  assert (Heq : m = length (rb_geoms w)).
  { destruct (decide (m < length (rb_geoms w))%nat) as [Hlt|Hge]; [|lia].
    destruct (Hcan Hlt) as [Hyes _]. congruence. }
  split; [exact Heq|]. now rewrite <- Heq.
Qed.

End PassVisits.

(** ** Termination of the passes *)



(** ** The flag [is_simplest] *)

(** C7 (amended).  When [process_line] returns, the geometry is marked
    [is_simplest] exactly when the validator rejected no collapse during
    the call; and a geometry marked [is_simplest] is as it was, flag
    included, after the rest of a pass and after any number of further
    passes, [process_line] not having been called on it. *)
Theorem is_simplest_after_pass (E : GeoEnv) (tolerance : Q) :
  (forall fuel w k g d w',
     rb_geoms w !! k = Some g ->
     process_line E tolerance fuel w k = Ok (d, w') ->
     exists g' evs,
       rb_geoms w' !! k = Some g' /\
       trace w' = trace w ++ evs /\
       is_simplest g' = no_reject evs) /\
  (forall fuel ks w n n' w' k g,
     rb_geoms w !! k = Some g -> is_simplest g = true ->
     for_geoms E tolerance fuel ks w n = Ok (n', w') ->
     rb_geoms w' !! k = Some g /\
     exists evs, trace w' = trace w ++ evs /\ k ∉ process_line_calls evs) /\
  (forall fuel passes w w' k g,
     rb_geoms w !! k = Some g -> is_simplest g = true ->
     simplify_passes E tolerance fuel passes w = Ok w' ->
     rb_geoms w' !! k = Some g /\
     exists evs, trace w' = trace w ++ evs /\ k ∉ process_line_calls evs).
Proof.
  split; [|split].
  - intros fuel w k g d w' Hg Hp.
    destruct (process_line_post E tolerance fuel w w' k g d Hg Hp)
      as (evs & [(g' & Hg' & _ & _ & Hs) _ _ _ _ Ht _ _]).
    exists g', evs. done.
  - intros fuel ks w n n' w' k g Hg Hsim Hs.
    destruct (for_geoms_post E tolerance fuel ks w w' n n' Hs) as (evs & Hrel & _).
    destruct (rr_skip _ _ _ _ _ Hrel k g Hg Hsim) as [Hg' Hnot].
    split; [done|]. exists evs. split; [apply (rr_trace _ _ _ _ _ Hrel)|done].
  - intros fuel passes w w' k g Hg Hsim Hs.
    destruct (simplify_passes_post E tolerance fuel passes w w' Hs)
      as (evs & [Hrel _ _ _ _]).
    destruct (rr_skip _ _ _ _ _ Hrel k g Hg Hsim) as [Hg' Hnot].
    split; [done|]. exists evs. split; [apply (rr_trace _ _ _ _ _ Hrel)|done].
Qed.

Lemma is_simplest_after_pass_witness :
  exists w' g' evs,
    process_line axis_env 1%Q 10 (mk_world [mk_geom 7 ring5]) 0 = Ok (1, w') /\
    rb_geoms w' !! 0%nat = Some g' /\
    trace w' = evs /\
    is_simplest g' = no_reject evs.
Proof.
  destruct (is_simplest_after_pass axis_env 1%Q) as (Hline & _ & _).
  eexists.
  assert (Hp : process_line axis_env 1%Q 10 (mk_world [mk_geom 7 ring5]) 0 = Ok (1, _))
    by (vm_compute; reflexivity).
  destruct (Hline 10%nat (mk_world [mk_geom 7 ring5]) 0%nat (mk_geom 7 ring5) _ _
              eq_refl Hp) as (g' & evs & Hg' & Ht & Hs).
  exists g', evs. split; [exact Hp|]. split; [exact Hg'|]. split; [exact Ht|exact Hs].
Defined.

(** C7, as stated, fails: the pass over [bend3] deletes a vertex, and the
    geometry is marked [is_simplest]. *)
Lemma is_simplest_after_a_change :
  process_line axis_env 1%Q 10 (mk_world [mk_geom 7 bend3]) 0 =
    Ok (1, add_events [CallGetSegmentIntersect 7 0 2; CallValidateSimplicity true;
                       CallValidateConstraints 0 0 2 true; CallDeleteVertex 7 1 1]
             (mk_world [{| id := 7; qgs_geom := [pt 0 0; pt 2 0];
                           is_simplest := true |}])).
Proof. reflexivity. Qed.

(** ** The integrity check of the spatial index *)

(** C6 (the code departs from it).  [reduce] does not look at
    [validate_structure]: it tests the attribute [is_structure_valid] of the
    results, which still is [None], so the integrity check is never made
    and [is_structure_valid] is [None] in the statistics returned. *)
Theorem reduce_never_checks_integrity
    (E : GeoEnv) (tolerance : Q) (fuel : nat) (gs_features : list (list RbGeom)) :
  reduce E tolerance true fuel gs_features = reduce E tolerance false fuel gs_features /\
  match reduce E tolerance true fuel gs_features with
  | Ok w' => is_structure_valid (rb_results w') = None /\ integrity_calls (trace w') = []
  | _ => True
  end.
Proof.
  split; [reflexivity|]. unfold reduce.
  destruct (_simplify_lines E tolerance fuel _) as [w'| |] eqn:Hs; simpl; try done.
  destruct (simplify_passes_post E tolerance fuel fuel _ w' Hs)
    as (evs & [Hrel _ _ _ (_ & _ & _ & Hvalid)]).
  simpl in Hvalid. rewrite Hvalid. simpl. split; [done|].
  rewrite (rr_trace _ _ _ _ _ Hrel). simpl. apply (rr_quiet _ _ _ _ _ Hrel).
Qed.

(** The run on [bend3] with [validate_structure] set. *)
Example reduce_validate_structure_example :
  exists w',
    reduce axis_env 1%Q true 10 [[mk_geom 7 bend3]] = Ok w' /\
    nbr_vertice_deleted (rb_results w') = 1 /\
    is_structure_valid (rb_results w') = None /\
    integrity_calls (trace w') = [].
Proof. eexists. split; [vm_compute; reflexivity|]. repeat split. Qed.

(** ** Tolerance 0 *)

Section ToleranceZero.

Variable E : GeoEnv.

Lemma loop_step_quiet (k : nat) (pts : QgsLineString) (w0 : World) (ub : Z)
    (st st' : LoopState) :
  loop_inv E k pts w0 ub st -> off_chord E pts ->
  loop_step E 0%Q k pts st = Some (Ok st') ->
  world st' = world st /\ deleted st' = deleted st.
Proof.
  intros Hinv Hoff Hstep.
  destruct st as [stk wst n]. unfold loop_step in Hstep. simpl in *.
  destruct stk as [|[first last] rest]; [discriminate|].
  pose proof Hinv as [Hchain Hub _ _ _ Hcount Hdel [g' Hg'] _ _ _ _ _ _ _].
  simpl in *. destruct Hchain as (Hf & Hl & _).
  rewrite (live_lookup wst k g' Hg') in *.
  assert (Hlast : last < Z.of_nat (length pts)) by lia.
  destruct (loop_body_cases E 0%Q k pts first last rest wst n g' Hg' Hf Hlast)
    as [[_ Hb]|(Hlong & fi & fd & Hfp & _ & Hcases)].
  { rewrite Hb in Hstep. now inversion Hstep; subst. }
  assert (Hpos : Qle_bool fd 0 = false).
  { destruct (find_farthest_point_spec E pts first last)
      as (fi' & fd' & Hfp' & _ & _ & Hmax & _); [lia..|].
    rewrite Hfp in Hfp'. inversion Hfp'; subst fi' fd'.
    destruct (Hoff first last) as (i & Hi & Hd); [lia..|].
    apply Qle_bool_false. eapply Qlt_le_trans; [exact Hd|]. now apply Hmax. }
  destruct Hcases as [[_ Hb]|[(Htol & _)|(Htol & _)]]; try congruence.
  rewrite Hb in Hstep. now inversion Hstep; subst.
Qed.

Lemma reach_quiet (w : World) (k : nat) (g : RbGeom) (st : LoopState) :
  rb_geoms w !! k = Some g -> off_chord E (qgs_geom g) ->
  reach E 0%Q k (qgs_geom g) (entry_state E w k) st ->
  world st = set_is_simplest k true w /\ deleted st = 0.
Proof.
  intros Hg Hoff Hreach. induction Hreach as [|st st' Hr IH Hstep]; [done|].
  destruct (reach_inv E 0%Q k _ _ _ _ _ (entry_inv E w k g Hg) Hr) as (ub & Hinv).
  destruct (loop_step_quiet k _ _ ub st st' Hinv Hoff Hstep) as [Hw Hd].
  destruct IH. split; congruence.
Qed.

Lemma process_line_quiet (fuel : nat) (w w' : World) (k : nat) (g : RbGeom) (d : Z) :
  rb_geoms w !! k = Some g -> off_chord E (qgs_geom g) ->
  process_line E 0%Q fuel w k = Ok (d, w') ->
  d = 0 /\ w' = set_is_simplest k true w.
Proof.
  intros Hg Hoff Hp. rewrite (process_line_entry E 0%Q fuel w k g Hg) in Hp.
  apply res_bind_Ok in Hp as (st & Hw & Heq). inversion Heq; subst.
  apply while_stack_reach in Hw as [Hreach _].
  destruct (reach_quiet w k g st Hg Hoff Hreach). done.
Qed.

Lemma set_is_simplest_points (k : nat) (b : bool) (w : World) :
  qgs_geom <$> rb_geoms (set_is_simplest k b w) = qgs_geom <$> rb_geoms w.
Proof.
  unfold set_is_simplest. destruct (rb_geoms w !! k) as [g|] eqn:Hg; [|done].
  simpl. rewrite list_fmap_insert. simpl. apply list_insert_id.
  now rewrite list_lookup_fmap, Hg.
Qed.

Lemma validator_calls_app (a b : list Event) :
  validator_calls (a ++ b) = validator_calls a ++ validator_calls b.
Proof. apply omap_app. Qed.

Lemma for_geoms_quiet (fuel : nat) (ks : list nat) :
  forall (w w' : World) (n n' : Z),
    Forall (off_chord E) (qgs_geom <$> rb_geoms w) ->
    for_geoms E 0%Q fuel ks w n = Ok (n', w') ->
    n' = n /\
    qgs_geom <$> rb_geoms w' = qgs_geom <$> rb_geoms w /\
    rb_results w' = rb_results w /\
    exists evs, trace w' = trace w ++ evs /\ validator_calls evs = [].
Proof.
  induction ks as [|k ks IH]; intros w w' n n' Hoff Hfor; simpl in Hfor.
  - inversion Hfor; subst. repeat split. exists []. now rewrite app_nil_r.
  - set (wb := {| rb_geoms := rb_geoms w; rb_results := rb_results w;
                  trace := trace w; polls := S (polls w) |}) in *.
    destruct (isCanceled E (polls w)).
    { inversion Hfor; subst. repeat split. exists []. simpl. now rewrite app_nil_r. }
    apply res_bind_Ok in Hfor as (g & Hget & Hfor).
    unfold get_geom in Hget. simpl in Hget.
    destruct (rb_geoms w !! k) as [g0|] eqn:Hg; [|discriminate].
    inversion Hget; subst g0. clear Hget.
    destruct (negb (is_simplest g)).
    + apply res_bind_Ok in Hfor as ([d w1] & Hpl & Hfor).
      assert (Hoffg : off_chord E (qgs_geom g)).
      { rewrite Forall_forall in Hoff. apply Hoff.
        apply list_elem_of_fmap. exists g. split; [done|].
        now apply list_elem_of_lookup_2 in Hg. }
      destruct (process_line_quiet fuel (log (CallProcessLine k) wb) w1 k g d Hg Hoffg Hpl)
        as [-> ->].
      destruct (IH _ _ _ _ (eq_ind_r (Forall (off_chord E)) Hoff
                  (set_is_simplest_points k true (log (CallProcessLine k) wb))) Hfor)
        as (Hn & Hpts & Hres & evs & Ht & Hv).
      destruct (set_is_simplest_fields k true (log (CallProcessLine k) wb))
        as (Hr1 & Ht1 & _).
      split; [lia|]. split; [now rewrite Hpts, set_is_simplest_points|].
      split; [now rewrite Hres, Hr1|].
      exists (CallProcessLine k :: evs). split; [|exact Hv].
      rewrite Ht, Ht1. simpl. now rewrite <- app_assoc.
    + destruct (IH wb w' n n' Hoff Hfor) as (Hn & Hpts & Hres & evs & Ht & Hv).
      repeat split; try done. now exists evs.
Qed.

Lemma simplify_passes_quiet (fuel passes : nat) (w w' : World) :
  Forall (off_chord E) (qgs_geom <$> rb_geoms w) ->
  simplify_passes E 0%Q fuel passes w = Ok w' ->
  qgs_geom <$> rb_geoms w' = qgs_geom <$> rb_geoms w /\
  nbr_vertice_deleted (rb_results w') = nbr_vertice_deleted (rb_results w) /\
  exists evs, trace w' = trace w ++ evs /\ validator_calls evs = [].
Proof.
  intros Hoff Hp. destruct passes as [|passes]; simpl in Hp; [discriminate|].
  apply res_bind_Ok in Hp as ([nbr w2] & Hfor & Hp).
  destruct (for_geoms_quiet fuel _
              (log (InfoIteration (nbr_pass (rb_results w) + 1))
                 (set_results (add_pass (rb_results w)) w)) _ _ _ Hoff Hfor)
    as (-> & Hpts & Hres & evs & Ht & Hv).
  simpl in Hp. inversion Hp; subst w'. simpl in *.
  split; [done|]. split; [now rewrite Hres|].
  exists ((InfoIteration (nbr_pass (rb_results w) + 1) :: evs) ++ [InfoVerticeDeleted 0]).
  split; [rewrite Ht; simpl; now rewrite <- !app_assoc|].
  rewrite validator_calls_app.
  change (validator_calls (InfoIteration (nbr_pass (rb_results w) + 1) :: evs))
    with (validator_calls evs).
  now rewrite Hv.
Qed.

Lemma regroup_concat {A B : Type} (f : A -> B) (ls : list (list A)) :
  regroup (length <$> ls) (f <$> concat ls) = (fmap (M := list) f) <$> ls.
Proof.
  induction ls as [|l ls IH]; [done|].
  change (concat (l :: ls)) with (l ++ concat ls).
  change (length <$> l :: ls) with (length l :: (length <$> ls)).
  change (fmap (M := list) f <$> l :: ls) with ((f <$> l) :: (fmap (M := list) f <$> ls)).
  rewrite fmap_app. cbn [regroup].
  rewrite take_app_length', drop_app_length' by now rewrite length_fmap.
  now rewrite IH.
Qed.

End ToleranceZero.

(** C5 (amended).  With tolerance 0 and features in which every span of
    three vertices or more has a vertex off its chord, the simplification
    returns, no span was submitted to the validator, no vertex was deleted
    and the output geometries are the input geometries. *)
Theorem tolerance_zero_no_op
    (E : GeoEnv) (validate_structure : bool) (fuel : nat)
    (gs_features : list (list RbGeom)) :
  Forall (off_chord E) (qgs_geom <$> concat gs_features) ->
  (2 * sum_list_with (fun g => length (qgs_geom g)) (concat gs_features) + 1 <= fuel)%nat ->
  exists w',
    reduce E 0%Q validate_structure fuel gs_features = Ok w' /\
    validator_calls (trace w') = [] /\
    nbr_vertice_deleted (rb_results w') = 0 /\
    qgs_features_out (rb_results w') = Some (fmap (M := list) qgs_geom <$> gs_features) /\
    qgs_geom <$> rb_geoms w' = qgs_geom <$> concat gs_features.
Proof.
  intros Hoff Hfuel. unfold reduce.
  match goal with
  | |- context [_simplify_lines E 0%Q fuel ?w0] =>
      destruct (simplify_passes_total E 0%Q fuel fuel w0) as (w1 & Hs);
        [unfold total_vertices; simpl; lia..|];
      destruct (simplify_passes_post E 0%Q fuel fuel w0 w1 Hs)
        as (evs' & [_ _ _ _ (_ & _ & _ & Hvalid)]);
      destruct (simplify_passes_quiet E fuel fuel w0 w1 Hoff Hs)
        as (Hpts & Hdel & evs & Ht & Hv)
  end.
  unfold _simplify_lines. rewrite Hs. simpl in *. rewrite Hvalid. simpl.
  eexists. split; [reflexivity|]. simpl.
  split; [now rewrite Ht|]. split; [done|]. split; [|done].
  now rewrite Hpts, regroup_concat.
Qed.

Lemma tolerance_zero_no_op_witness :
  exists w',
    reduce axis_env 0%Q false 10 [[mk_geom 7 bend3]] = Ok w' /\
    nbr_vertice_deleted (rb_results w') = 0 /\
    qgs_features_out (rb_results w') = Some [[bend3]].
Proof.
  destruct (tolerance_zero_no_op axis_env false 10 [[mk_geom 7 bend3]])
    as (w' & Hr & _ & Hd & Ho & _).
  - repeat constructor. intros f l Hf Hfl Hl. simpl in Hl.
    assert (f = 0) by lia. assert (l = 2) by lia. subst.
    exists 1. split; [lia|]. reflexivity.
  - simpl. lia.
  - exists w'. split; [exact Hr|]. split; [exact Hd|exact Ho].
Defined.

(** C5, as stated, fails: with tolerance 0 the middle vertex of
    [straight3], at distance 0 from the chord, is deleted. *)
Lemma tolerance_zero_deletes_vertex_on_chord :
  exists w',
    reduce axis_env 0%Q false 10 [[mk_geom 7 straight3]] = Ok w' /\
    validator_calls (trace w') = [(0%nat, 0, 2)] /\
    nbr_vertice_deleted (rb_results w') = 1 /\
    qgs_features_out (rb_results w') = Some [[[pt 0 0; pt 2 0]]].
Proof. eexists. split; [vm_compute; reflexivity|]. repeat split. Qed.

(** ** Further properties: the steps of the loop of [process_line] *)

Section LoopSteps.

Variable E : GeoEnv.
Variable tolerance : Q.

(** What a step from a state of the loop does: nothing but changing the
    stack, or a collapse, or a rejection. *)
Lemma reach_step_effect (w : World) (k : nat) (g : RbGeom) (st st' : LoopState) :
  rb_geoms w !! k = Some g ->
  reach E tolerance k (qgs_geom g) (entry_state E w k) st ->
  loop_step E tolerance k (qgs_geom g) st = Some (Ok st') ->
  exists first last rest g',
    stack st = (first, last) :: rest /\
    rb_geoms (world st) !! k = Some g' /\
    id g' = id g /\
    0 <= first /\ last < Z.of_nat (length (qgs_geom g')) /\
    Z.of_nat (length (qgs_geom g')) <= Z.of_nat (length (qgs_geom g)) /\
    ((world st' = world st /\ deleted st' = deleted st)
     \/
     (within_tolerance E tolerance (qgs_geom g) (first, last) /\
      stack st' = rest /\
      deleted st' = deleted st + (last - first - 1) /\
      exists evs,
        forallb is_validator_event evs = true /\
        validate_constraints E (world st) k first last =
          Ok (true, add_events evs (world st)) /\
        world st' =
          add_events (evs ++ [CallValidateConstraints k first last true;
                              CallDeleteVertex (id g) (first + 1) (last - 1)])
            (set_geoms (<[k := with_removed g' (first + 1) (last - 1)]>
                          (rb_geoms (world st))) (world st)))
     \/
     (within_tolerance E tolerance (qgs_geom g) (first, last) /\
      deleted st' = deleted st /\
      exists evs fi,
        forallb is_validator_event evs = true /\
        validate_constraints E (world st) k first last =
          Ok (false, add_events evs (world st)) /\
        first < fi < last /\
        stack st' = (fi, last) :: (first, fi) :: rest /\
        world st' =
          set_is_simplest k false
            (add_events (evs ++ [CallValidateConstraints k first last false])
               (world st)))).
Proof.
  intros Hg Hreach Hstep.
  destruct (reach_inv E tolerance k _ _ _ _ _ (entry_inv E w k g Hg) Hreach) as (ub & Hinv).
  destruct st as [stk wst n]. unfold loop_step in Hstep. simpl in *.
  destruct stk as [|[first last] rest]; [discriminate|].
  pose proof Hinv as [Hchain Hub _ _ _ Hcount Hdel [g' Hg'] _ _ _ _ _ _ _ Hid].
  simpl in *. destruct Hchain as (Hf & Hl & _).
  rewrite (live_lookup wst k g' Hg') in *.
  rewrite Hg', (set_is_simplest_lookup k true w g Hg) in Hid. simpl in Hid.
  inversion Hid as [Hid'].
  assert (Hlast : last < Z.of_nat (length (qgs_geom g))) by lia.
  exists first, last, rest, g'.
  split; [done|]. split; [done|]. split; [done|]. split; [done|].
  split; [lia|]. split; [lia|].
  destruct (loop_body_cases E tolerance k (qgs_geom g) first last rest wst n g' Hg' Hf Hlast)
    as [[_ Hb]|(Hlong & fi & fd & Hfp & Hfi & Hcases)].
  { left. rewrite Hb in Hstep. now inversion Hstep; subst. }
  destruct (find_farthest_point_spec E (qgs_geom g) first last)
    as (fi' & fd' & Hfp' & _ & _ & Hmax & _); [lia..|].
  rewrite Hfp in Hfp'. inversion Hfp'; subst fi' fd'. clear Hfp'.
  destruct Hcases as [[Htol Hb]|[(Htol & evs & Hv & Hev & _ & Hb)
                                |(Htol & evs & Hv & Hev & Hb)]];
    rewrite Hb in Hstep; inversion Hstep; subst st'; simpl.
  - left. done.
  - right. left. apply Qle_bool_iff in Htol.
    split; [|split; [done|split; [done|]]].
    + repeat split; simpl; try lia.
      intros i Hi. eapply Qle_trans; [now apply Hmax|done].
    + exists evs. rewrite Hid'. done.
  - right. right. apply Qle_bool_iff in Htol.
    split; [|split; [done|]].
    + repeat split; simpl; try lia.
      intros i Hi. eapply Qle_trans; [now apply Hmax|done].
    + exists evs, fi. done.
Qed.

Lemma accepted_spans_app (a b : list Event) :
  accepted_spans (a ++ b) = accepted_spans a ++ accepted_spans b.
Proof. apply omap_app. Qed.

Lemma delete_requests_app (a b : list Event) :
  delete_requests (a ++ b) = delete_requests a ++ delete_requests b.
Proof. apply omap_app. Qed.

Lemma validator_events_silent (evs : list Event) :
  forallb is_validator_event evs = true ->
  accepted_spans evs = [] /\ delete_requests evs = [] /\ validator_calls evs = [].
Proof.
  induction evs as [|e evs IH]; [done|]. simpl. intros H.
  apply andb_true_iff in H as [He H]. destruct (IH H) as (IH1 & IH2 & IH3).
  unfold accepted_spans, delete_requests, validator_calls in *.
  destruct e; simpl in *; try discriminate; rewrite ?IH1, ?IH2, ?IH3; done.
Qed.

Lemma sum_Z_app (a b : list Z) : sum_Z (a ++ b) = sum_Z a + sum_Z b.
Proof. induction a as [|x a IH]; simpl; [done|]. unfold sum_Z in *. simpl. lia. Qed.

(** The account of a call of [process_line], in a state of its loop. *)
Lemma reach_account (w : World) (k : nat) (g : RbGeom) (st : LoopState) :
  rb_geoms w !! k = Some g ->
  reach E tolerance k (qgs_geom g) (entry_state E w k) st ->
  exists evs,
    trace (world st) = trace w ++ evs /\
    delete_requests evs = interior <$> accepted_spans evs /\
    Forall (within_tolerance E tolerance (qgs_geom g)) (accepted_spans evs) /\
    Forall (fun c => c.1.1 = k /\ within_tolerance E tolerance (qgs_geom g) (c.1.2, c.2))
           (validator_calls evs) /\
    deleted st = sum_Z (interior_size <$> accepted_spans evs).
Proof.
  intros Hg Hreach. induction Hreach as [|st st' Hr IH Hstep].
  - exists []. unfold entry_state. simpl.
    destruct (set_is_simplest_fields k true w) as (_ & Ht & _).
    rewrite Ht, app_nil_r. repeat split; constructor.
  - destruct IH as (evs0 & Ht0 & Hreq & Htol & Hcalls & Hdel).
    destruct (reach_step_effect w k g st st' Hg Hr Hstep)
      as (first & last & rest & g' & _ & _ & _ & _ & _ & _ & Hcases).
    destruct Hcases as [[Hw Hd]|[(Hin & _ & Hd & evs & Hev & _ & Hw)
                                |(Hin & Hd & evs & fi & Hev & _ & _ & _ & Hw)]].
    + exists evs0. rewrite Hw, Hd. done.
    + destruct (validator_events_silent evs Hev) as (Ha & Hq & Hc).
      exists (evs0 ++ evs ++ [CallValidateConstraints k first last true;
                              CallDeleteVertex (id g) (first + 1) (last - 1)]).
      rewrite Hw. simpl. split; [rewrite Ht0; now rewrite <- !app_assoc|].
      rewrite !accepted_spans_app, !delete_requests_app, !validator_calls_app, Ha, Hq, Hc.
      simpl. rewrite !fmap_app, Hreq, sum_Z_app, Hd, Hdel. simpl.
      split; [done|]. split; [|split].
      * apply Forall_app. split; [done|]. constructor; [done|constructor].
      * apply Forall_app. split; [done|]. constructor; [done|constructor].
      * unfold interior_size, sum_Z. simpl. lia.
    + destruct (validator_events_silent evs Hev) as (Ha & Hq & Hc).
      exists (evs0 ++ evs ++ [CallValidateConstraints k first last false]).
      rewrite Hw, Hd.
      destruct (set_is_simplest_fields k false (add_events
                  (evs ++ [CallValidateConstraints k first last false]) (world st)))
        as (_ & Ht & _).
      rewrite Ht. simpl. split; [rewrite Ht0; now rewrite <- !app_assoc|].
      rewrite !accepted_spans_app, !delete_requests_app, !validator_calls_app, Ha, Hq, Hc.
      simpl. rewrite !app_nil_r. split; [done|]. split; [done|]. split; [|done].
      apply Forall_app. split; [done|]. constructor; [done|constructor].
Qed.

End LoopSteps.

(** ** Further properties: bounds of the indices *)

(** X1.  [find_farthest_point] on a span of fewer than three points returns
    the first index and the distance 0 without reading the points; on a
    longer span that starts inside the list and ends beyond it, it raises
    [IndexError]. *)
Theorem find_farthest_point_bounds (E : GeoEnv) (qgs_points : QgsLineString)
    (first last : Z) :
  (last - first < 2 -> find_farthest_point E qgs_points first last = Ok (first, 0%Q)) /\
  (2 <= last - first -> 0 <= first -> Z.of_nat (length qgs_points) <= last ->
     find_farthest_point E qgs_points first last = Raise IndexError).
Proof.
  unfold find_farthest_point. split.
  - intros H. destruct (Z.leb_spec 2 (last - first)); [lia|done].
  - intros H Hf Hl. destruct (Z.leb_spec 2 (last - first)); [|lia].
    assert (Hlast : py_getitem qgs_points last = Raise IndexError).
    { unfold py_getitem. destruct (Z.ltb_spec last 0); [lia|].
      destruct (Z.ltb_spec last (Z.of_nat (length qgs_points))); [lia|].
      now rewrite andb_false_r. }
    rewrite Hlast.
    destruct (py_getitem qgs_points first) eqn:Hfirst; simpl; try done.
    + unfold py_getitem in Hfirst. destruct (first <? 0); simpl in Hfirst;
        repeat match type of Hfirst with
          | (if ?b then _ else _) = _ => destruct b
          | match ?o with _ => _ end = _ => destruct o
          end; congruence.
    + unfold py_getitem in Hfirst. destruct (first <? 0); simpl in Hfirst;
        repeat match type of Hfirst with
          | (if ?b then _ else _) = _ => destruct b
          | match ?o with _ => _ end = _ => destruct o
          end; congruence.
Qed.

Lemma find_farthest_point_bounds_witness :
  find_farthest_point axis_env bend3 0 1 = Ok (0, 0%Q) /\
  find_farthest_point axis_env bend3 0 3 = Raise IndexError.
Proof.
  destruct (find_farthest_point_bounds axis_env bend3 0 1) as [Hshort _].
  destruct (find_farthest_point_bounds axis_env bend3 0 3) as [_ Hout].
  split; [apply Hshort; lia|apply Hout; simpl; lia].
Defined.

(** X2.  [validate_constraints] on a span without any vertex (last before
    first) raises [IndexError], unless the degeneracy guard answers first. *)
Theorem validate_constraints_empty_span
    (E : GeoEnv) (w : World) (k : nat) (g : RbGeom) (first last : Z) :
  rb_geoms w !! k = Some g -> last < first ->
  validate_constraints E w k first last =
    if degenerate E (qgs_geom g) first last then Ok (false, w) else Raise IndexError.
Proof.
  intros Hg Hlt. unfold validate_constraints, get_geom, degenerate. rewrite Hg. simpl.
  destruct (isClosed E (qgs_geom g) && _); [done|].
  unfold py_range. rewrite seqZ_nil by lia. reflexivity.
Qed.

Lemma validate_constraints_empty_span_witness :
  validate_constraints axis_env (mk_world [mk_geom 7 bend3]) 0 2 1 = Raise IndexError.
Proof.
  apply (validate_constraints_empty_span axis_env (mk_world [mk_geom 7 bend3]) 0
           (mk_geom 7 bend3) 2 1 eq_refl).
  lia.
Defined.

(** ** Further properties: a call of [process_line] *)

Section ProcessLineMore.

Variable E : GeoEnv.
Variable tolerance : Q.

Lemma find_farthest_point_ext (l1 l2 : QgsLineString) (first last : Z) :
  (forall i, first <= i <= last ->
     0 <= i < Z.of_nat (length l1) /\ l1 !! Z.to_nat i = l2 !! Z.to_nat i) ->
  find_farthest_point E l1 first last = find_farthest_point E l2 first last.
Proof.
  intros Hsame. unfold find_farthest_point.
  destruct (Z.leb_spec 2 (last - first)) as [H2|H2]; [|done].
  assert (Hget : forall i, first <= i <= last ->
            py_getitem l1 i = Ok (vertexAt l1 i) /\ py_getitem l2 i = Ok (vertexAt l1 i)).
  { intros i Hi. destruct (Hsame i Hi) as [Hr Heq]. split.
    - now apply py_getitem_vertexAt.
    - destruct (py_getitem_in_range l1 i Hr) as (x & Hx & _).
      rewrite (vertexAt_lookup l1 i x) by (lia || done).
      apply py_getitem_nonneg; [lia|]. etrans; [symmetry; exact Heq|exact Hx]. }
  destruct (Hget first ltac:(lia)) as [-> ->].
  destruct (Hget last ltac:(lia)) as [-> ->]. simpl.
  rewrite !(res_mapM_total _ (fun i => distance E (vertexAt l1 first) (vertexAt l1 last)
                                         (vertexAt l1 i))); [done| |].
  - intros i Hi. unfold py_range in Hi. apply elem_of_seqZ in Hi.
    destruct (Hget i ltac:(lia)) as [_ ->]. done.
  - intros i Hi. unfold py_range in Hi. apply elem_of_seqZ in Hi.
    destruct (Hget i ltac:(lia)) as [-> _]. done.
Qed.

(** X3.  A call of [process_line] on a geometry of n vertices returns, its
    loop making at most 2 n + 1 iterations, and raises no exception; it
    leaves every other geometry, the statistics and the count of polls as
    they were, and the geometry keeps its identifier. *)
Theorem process_line_returns (fuel : nat) (w : World) (k : nat) (g : RbGeom) :
  rb_geoms w !! k = Some g ->
  (2 * length (qgs_geom g) + 1 <= fuel)%nat ->
  exists d w' g',
    process_line E tolerance fuel w k = Ok (d, w') /\
    rb_geoms w' !! k = Some g' /\
    id g' = id g /\
    length (rb_geoms w') = length (rb_geoms w) /\
    (forall j, j <> k -> rb_geoms w' !! j = rb_geoms w !! j) /\
    rb_results w' = rb_results w /\
    polls w' = polls w.
Proof.
  intros Hg Hfuel.
  destruct (process_line_ends E tolerance fuel w k g Hg Hfuel) as (st & ub & Hp & _ & Hinv & _).
  destruct Hinv as [_ _ _ _ _ _ _ [g' Hg'] Hoth Hres Hpolls _ _ Hlen _ Hid].
  destruct (set_is_simplest_fields k true w) as (Hr & _ & Hpo).
  rewrite Hg', (set_is_simplest_lookup k true w g Hg) in Hid. simpl in Hid.
  exists (deleted st), (world st), g'. split; [done|]. split; [done|].
  split; [congruence|]. split; [now rewrite Hlen, set_is_simplest_length|].
  split; [|split; congruence].
  intros j Hj. rewrite Hoth by done. now apply set_is_simplest_other.
Qed.

End ProcessLineMore.

Lemma process_line_returns_witness :
  exists d w', process_line axis_env 1%Q 11 (mk_world [mk_geom 7 ring5]) 0 = Ok (d, w').
Proof.
  destruct (process_line_returns axis_env 1%Q 11 (mk_world [mk_geom 7 ring5]) 0
              (mk_geom 7 ring5) eq_refl ltac:(simpl; lia)) as (d & w' & g' & Hp & _).
  exists d, w'. exact Hp.
Defined.

Section ProcessLineGeometry.

Variable E : GeoEnv.
Variable tolerance : Q.

Lemma reach_two_points (w : World) (k : nat) (g : RbGeom) (st : LoopState) :
  rb_geoms w !! k = Some g ->
  reach E tolerance k (qgs_geom g) (entry_state E w k) st ->
  (2 <= length (qgs_geom g))%nat -> (2 <= length (live (world st) k))%nat.
Proof.
  intros Hg Hreach H2. induction Hreach as [|st st' Hr IH Hstep].
  - unfold entry_state. simpl. unfold live.
    now rewrite (set_is_simplest_lookup k true w g Hg).
  - destruct (reach_step_effect E tolerance w k g st st' Hg Hr Hstep)
      as (first & last & rest & g' & _ & Hg' & _ & Hf & Hl & _ & Hcases).
    destruct Hcases as [[Hw _]|[((_ & Hlong & _) & _ & _ & evs & _ & _ & Hw)
                               |(_ & _ & evs & fi & _ & _ & _ & _ & Hw)]].
    + now rewrite Hw.
    + rewrite Hw. unfold live. simpl.
      rewrite list_lookup_insert_eq by now apply lookup_lt_Some in Hg'.
      simpl in *.
      destruct (remove_vertices_interior (qgs_geom g') first last) as (_ & Hlen & _);
        [lia..|]. lia.
    + rewrite Hw. unfold live in *.
      rewrite (set_is_simplest_lookup k false
                 (add_events (evs ++ [CallValidateConstraints k first last false])
                    (world st)) g' Hg').
      simpl. now rewrite Hg' in IH.
Qed.

(** X4.  When [process_line] returns, what is left of the geometry is a sub
    sequence of its vertices with the same first and last vertex, closed if
    and only if the geometry was; the count returned is the number of
    vertices the geometry lost; and a geometry of at least 2 vertices keeps
    at least 2. *)
Theorem process_line_keeps_ends
    (fuel : nat) (w w' : World) (k : nat) (g : RbGeom) (d : Z) :
  rb_geoms w !! k = Some g ->
  process_line E tolerance fuel w k = Ok (d, w') ->
  exists g',
    rb_geoms w' !! k = Some g' /\
    kept_of g (qgs_geom g') /\
    isClosed E (qgs_geom g') = isClosed E (qgs_geom g) /\
    Z.of_nat (length (qgs_geom g')) + d = Z.of_nat (length (qgs_geom g)) /\
    0 <= d /\
    ((2 <= length (qgs_geom g))%nat -> (2 <= length (qgs_geom g'))%nat).
Proof.
  intros Hg Hp.
  destruct (process_line_post E tolerance fuel w w' k g d Hg Hp)
    as (evs & [(g' & Hg' & (Hsub & Hh & Hl & _) & Hcount & _) _ _ _ _ _ _ Hnn]).
  exists g'. split; [done|]. split; [done|].
  split; [now apply isClosed_ends|]. split; [done|]. split; [done|].
  intros H2. rewrite (process_line_entry E tolerance fuel w k g Hg) in Hp.
  apply res_bind_Ok in Hp as (st & Hw & Heq). inversion Heq; subst.
  apply while_stack_reach in Hw as [Hreach _].
  pose proof (reach_two_points w k g st Hg Hreach H2) as Hlive.
  now rewrite (live_lookup _ k g' Hg') in Hlive.
Qed.

(** X5.  In a call of [process_line], the spatial index is asked to delete
    vertices only for the spans the validator accepted, and for each of
    them, in the same order, exactly the vertices strictly inside the span;
    the count returned is the sum of the numbers of these vertices. *)
Theorem process_line_deletes_accepted_spans
    (fuel : nat) (w w' : World) (k : nat) (g : RbGeom) (d : Z) :
  rb_geoms w !! k = Some g ->
  process_line E tolerance fuel w k = Ok (d, w') ->
  exists evs,
    trace w' = trace w ++ evs /\
    delete_requests evs = interior <$> accepted_spans evs /\
    d = sum_Z (interior_size <$> accepted_spans evs).
Proof.
  intros Hg Hp. rewrite (process_line_entry E tolerance fuel w k g Hg) in Hp.
  apply res_bind_Ok in Hp as (st & Hw & Heq). inversion Heq; subst.
  apply while_stack_reach in Hw as [Hreach _].
  destruct (reach_account E tolerance w k g st Hg Hreach) as (evs & Ht & Hreq & _ & _ & Hd).
  exists evs. done.
Qed.

(** X6.  In a call of [process_line], every span submitted to the
    validator, hence every span collapsed, is a span of the processed
    geometry all of whose interior vertices, as they were on entry, are
    within the tolerance of the chord of the span. *)
Theorem process_line_within_tolerance
    (fuel : nat) (w w' : World) (k : nat) (g : RbGeom) (d : Z) :
  rb_geoms w !! k = Some g ->
  process_line E tolerance fuel w k = Ok (d, w') ->
  exists evs,
    trace w' = trace w ++ evs /\
    Forall (fun c => c.1.1 = k /\ within_tolerance E tolerance (qgs_geom g) (c.1.2, c.2))
           (validator_calls evs) /\
    Forall (within_tolerance E tolerance (qgs_geom g)) (accepted_spans evs).
Proof.
  intros Hg Hp. rewrite (process_line_entry E tolerance fuel w k g Hg) in Hp.
  apply res_bind_Ok in Hp as (st & Hw & Heq). inversion Heq; subst.
  apply while_stack_reach in Hw as [Hreach _].
  destruct (reach_account E tolerance w k g st Hg Hreach) as (evs & Ht & _ & Ha & Hc & _).
  exists evs. done.
Qed.

(** X7.  The copy of the vertices taken on entry is as good as the live
    geometry: in every state of the loop of [process_line] and for every
    span on the stack, [find_farthest_point] gives on the live geometry what
    it gives on the copy, and the sub line of the span, which the validator
    reads from the live geometry, is that of the copy. *)
Theorem process_line_copy_coherent
    (w : World) (k : nat) (g : RbGeom) (st : LoopState) (first last : Z) :
  rb_geoms w !! k = Some g ->
  reach E tolerance k (qgs_geom g) (entry_state E w k) st ->
  (first, last) ∈ stack st ->
  find_farthest_point E (live (world st) k) first last =
    find_farthest_point E (qgs_geom g) first last /\
  subline (live (world st) k) first last = subline (qgs_geom g) first last.
Proof.
  intros Hg Hreach Hin.
  destruct (reach_inv E tolerance k _ _ _ _ _ (entry_inv E w k g Hg) Hreach) as (ub & Hinv).
  pose proof (fun i => loop_inv_span_valid E k _ _ ub st first last i Hinv Hin) as Hvalid.
  split; [now apply find_farthest_point_ext|].
  unfold subline. apply list_fmap_ext. intros j i Hi.
  unfold py_range in Hi. apply lookup_seqZ in Hi as [-> Hj].
  destruct (Hvalid (first + Z.of_nat j) ltac:(lia)) as [Hr Heq].
  unfold vertexAt. destruct (Z.ltb_spec (first + Z.of_nat j) 0); [done|].
  f_equal. exact Heq.
Qed.

End ProcessLineGeometry.

Lemma process_line_keeps_ends_witness :
  exists w' g',
    process_line axis_env 1%Q 10 (mk_world [mk_geom 7 bend3]) 0 = Ok (1, w') /\
    rb_geoms w' !! 0%nat = Some g' /\
    kept_of (mk_geom 7 bend3) (qgs_geom g').
Proof.
  eexists.
  assert (Hp : process_line axis_env 1%Q 10 (mk_world [mk_geom 7 bend3]) 0 = Ok (1, _))
    by (vm_compute; reflexivity).
  destruct (process_line_keeps_ends axis_env 1%Q 10 (mk_world [mk_geom 7 bend3]) _
              0 (mk_geom 7 bend3) 1 eq_refl Hp) as (g' & Hg' & Hk & _).
  exists g'. split; [exact Hp|]. split; [exact Hg'|exact Hk].
Defined.

Lemma process_line_deletes_accepted_spans_witness :
  exists w' evs,
    process_line axis_env 1%Q 10 (mk_world [mk_geom 7 ring5]) 0 = Ok (1, w') /\
    trace w' = evs /\
    delete_requests evs = interior <$> accepted_spans evs.
Proof.
  eexists.
  assert (Hp : process_line axis_env 1%Q 10 (mk_world [mk_geom 7 ring5]) 0 = Ok (1, _))
    by (vm_compute; reflexivity).
  destruct (process_line_deletes_accepted_spans axis_env 1%Q 10
              (mk_world [mk_geom 7 ring5]) _ 0 (mk_geom 7 ring5) 1 eq_refl Hp)
    as (evs & Ht & Hreq & _).
  exists evs. split; [exact Hp|]. split; [exact Ht|exact Hreq].
Defined.

Lemma process_line_within_tolerance_witness :
  exists w' evs,
    process_line axis_env 1%Q 10 (mk_world [mk_geom 7 ring5]) 0 = Ok (1, w') /\
    trace w' = evs /\
    Forall (within_tolerance axis_env 1%Q ring5) (accepted_spans evs).
Proof.
  eexists.
  assert (Hp : process_line axis_env 1%Q 10 (mk_world [mk_geom 7 ring5]) 0 = Ok (1, _))
    by (vm_compute; reflexivity).
  destruct (process_line_within_tolerance axis_env 1%Q 10
              (mk_world [mk_geom 7 ring5]) _ 0 (mk_geom 7 ring5) 1 eq_refl Hp)
    as (evs & Ht & _ & Ha).
  exists evs. split; [exact Hp|]. split; [exact Ht|exact Ha].
Defined.

Lemma process_line_copy_coherent_witness :
  find_farthest_point axis_env ring4 0 2 = find_farthest_point axis_env ring5 0 2.
Proof.
  apply (process_line_copy_coherent axis_env 1%Q (mk_world [mk_geom 7 ring5]) 0
           (mk_geom 7 ring5)
           {| stack := [(0, 2)];
              world := add_events [CallGetSegmentIntersect 7 2 4;
                                   InfoNonSimple (pt 0 0);
                                   CallValidateConstraints 0 2 4 true;
                                   CallDeleteVertex 7 3 3]
                         (mk_world [{| id := 7; qgs_geom := ring4;
                                       is_simplest := true |}]);
              deleted := 1 |} 0 2 eq_refl).
  - eapply reach_step; [apply reach_start|]. reflexivity.
  - apply list_elem_of_here.
Defined.

(** ** Further properties: the passes *)

Section PassesMore.

Variable E : GeoEnv.
Variable tolerance : Q.

Lemma for_geoms_all_simplest (fuel : nat) (ks : list nat) :
  forall (w : World) (n : Z),
    Forall (fun g => is_simplest g = true) (rb_geoms w) ->
    Forall (fun k => (k < length (rb_geoms w))%nat) ks ->
    exists p,
      for_geoms E tolerance fuel ks w n =
        Ok (n, {| rb_geoms := rb_geoms w; rb_results := rb_results w;
                  trace := trace w; polls := p |}) /\
      (polls w <= p <= polls w + length ks)%nat.
Proof.
  induction ks as [|k ks IH]; intros w n Hall Hks; simpl.
  - exists (polls w). split; [now destruct w|lia].
  - inversion Hks as [|? ? Hk Hks']; subst.
    destruct (isCanceled E (polls w)); [exists (S (polls w)); split; [done|lia]|].
    unfold get_geom. simpl.
    destruct (lookup_lt_is_Some_2 _ _ Hk) as [g Hg]. rewrite Hg. simpl.
    rewrite Forall_forall in Hall.
    rewrite (Hall g) by now apply list_elem_of_lookup_2 in Hg.
    simpl.
    destruct (IH {| rb_geoms := rb_geoms w; rb_results := rb_results w;
                    trace := trace w; polls := S (polls w) |} n) as (p & Hfor & Hp).
    { now rewrite Forall_forall. }
    { done. }
    exists p. split; [exact Hfor|simpl in Hp; lia].
Qed.

End PassesMore.

(** X8.  When every geometry is marked [is_simplest] (in particular when
    there is no geometry), [_simplify_lines] makes one pass and returns: no
    geometry is looked at, the count of passes grows by 1, the total of
    deleted vertices stays, and the two messages of the pass are pushed. *)
Theorem simplify_lines_all_simplest
    (E : GeoEnv) (tolerance : Q) (fuel : nat) (w : World) :
  Forall (fun g => is_simplest g = true) (rb_geoms w) ->
  exists p,
    _simplify_lines E tolerance (S fuel) w =
      Ok {| rb_geoms := rb_geoms w;
            rb_results := add_pass (rb_results w);
            trace := trace w ++ [InfoIteration (nbr_pass (rb_results w) + 1);
                                 InfoVerticeDeleted 0];
            polls := p |} /\
    (polls w <= p <= polls w + length (rb_geoms w))%nat.
Proof.
  intros Hall. unfold _simplify_lines. simpl.
  match goal with
  | |- context [for_geoms E tolerance (S fuel) ?ks ?w0 0] =>
      destruct (for_geoms_all_simplest E tolerance (S fuel) ks w0 0) as (p & Hfor & Hp)
  end.
  { exact Hall. }
  { rewrite Forall_forall. intros k Hk. apply elem_of_seq in Hk. simpl. lia. }
  rewrite Hfor. simpl. exists p. split.
  - f_equal. apply world_eq; simpl; try reflexivity. now rewrite <- app_assoc.
  - simpl in Hp. rewrite length_seq in Hp. exact Hp.
Qed.

Lemma simplify_lines_all_simplest_witness :
  exists w',
    _simplify_lines axis_env 1%Q 1
      (mk_world [{| id := 7; qgs_geom := bend3; is_simplest := true |}]) = Ok w' /\
    rb_geoms w' = [{| id := 7; qgs_geom := bend3; is_simplest := true |}].
Proof.
  destruct (simplify_lines_all_simplest axis_env 1%Q 0
              (mk_world [{| id := 7; qgs_geom := bend3; is_simplest := true |}]))
    as (p & Hs & _).
  - repeat constructor.
  - eexists. split; [exact Hs|reflexivity].
Defined.

(** X9.  When the feedback object answers the first poll of a pass with a
    cancellation, [_simplify_lines] returns after this pass, in which no
    geometry is looked at: the geometries and the total of deleted vertices
    are as they were, and the count of passes has grown by 1. *)
Theorem simplify_lines_canceled
    (E : GeoEnv) (tolerance : Q) (fuel : nat) (w : World) :
  isCanceled E (polls w) = true ->
  exists p,
    _simplify_lines E tolerance (S fuel) w =
      Ok {| rb_geoms := rb_geoms w;
            rb_results := add_pass (rb_results w);
            trace := trace w ++ [InfoIteration (nbr_pass (rb_results w) + 1);
                                 InfoVerticeDeleted 0];
            polls := p |} /\
    (polls w <= p <= S (polls w))%nat.
Proof.
  intros Hc. unfold _simplify_lines. simpl.
  destruct (length (rb_geoms w)) as [|m]; simpl.
  - exists (polls w). split; [|lia].
    f_equal. apply world_eq; simpl; try reflexivity. now rewrite <- app_assoc.
  - rewrite Hc. simpl. exists (S (polls w)). split; [|lia].
    f_equal. apply world_eq; simpl; try reflexivity. now rewrite <- app_assoc.
Qed.

Lemma simplify_lines_canceled_witness :
  exists w',
    _simplify_lines canceled_env 1%Q 1 (mk_world [mk_geom 7 bend3]) = Ok w' /\
    rb_geoms w' = [mk_geom 7 bend3].
Proof.
  destruct (simplify_lines_canceled canceled_env 1%Q 0 (mk_world [mk_geom 7 bend3])
              eq_refl) as (p & Hs & _).
  eexists. split; [exact Hs|reflexivity].
Defined.

(** ** Further properties: the statistics returned *)

Lemma sum_Z_positive (ds : list Z) :
  Forall (fun d => 0 < d) ds -> Z.of_nat (length ds) <= sum_Z ds.
Proof.
  induction 1 as [|d ds Hd _ IH]; [done|]. unfold sum_Z in *. simpl in *. lia.
Qed.

Section Run.

Variable E : GeoEnv.
Variable tolerance : Q.

(** What [douglas_peucker] returns, from what [_simplify_lines] returns. *)
Lemma douglas_peucker_unfold (validate_structure : bool) (fuel : nat)
    (gs_features : list (list RbGeom)) :
  (2 * sum_list_with (fun g => length (qgs_geom g)) (concat gs_features) + 1 <= fuel)%nat ->
  exists w1 evs,
    simplify_passes E tolerance fuel fuel (reduce_entry gs_features) = Ok w1 /\
    passes_post E (reduce_entry gs_features) w1 evs /\
    douglas_peucker E tolerance validate_structure fuel gs_features =
      Ok (set_results
            {| in_nbr_features := in_nbr_features (rb_results w1);
               out_nbr_features :=
                 Some (Z.of_nat (length (regroup (length <$> gs_features)
                                           (qgs_geom <$> rb_geoms w1))));
               nbr_vertice_deleted := nbr_vertice_deleted (rb_results w1);
               qgs_features_out :=
                 Some (regroup (length <$> gs_features) (qgs_geom <$> rb_geoms w1));
               nbr_pass := nbr_pass (rb_results w1);
               is_structure_valid := is_structure_valid (rb_results w1) |} w1).
Proof.
  intros Hfuel.
  destruct (simplify_passes_total E tolerance fuel fuel (reduce_entry gs_features))
    as (w1 & Hs); [unfold total_vertices; simpl; lia..|].
  destruct (simplify_passes_post E tolerance fuel fuel _ w1 Hs) as (evs & Hpost).
  exists w1, evs. split; [exact Hs|]. split; [exact Hpost|].
  unfold douglas_peucker, reduce, _simplify_lines.
  change (simplify_passes E tolerance fuel fuel _)
    with (simplify_passes E tolerance fuel fuel (reduce_entry gs_features)).
  rewrite Hs. cbn [res_bind]. cbv zeta.
  destruct Hpost as [_ _ _ _ (_ & _ & _ & Hvalid)]. simpl in Hvalid.
  unfold set_results at 1 2. cbn [rb_results is_structure_valid].
  rewrite Hvalid. reflexivity.
Qed.

End Run.

(** X11.  In the statistics [douglas_peucker] returns, the count of passes
    is 1 more than the number of passes that deleted a vertex, hence at
    least 1 and at most the total of deleted vertices plus 1, and the total
    of deleted vertices is the number of vertices given less the number of
    vertices returned. *)
Theorem douglas_peucker_statistics
    (E : GeoEnv) (tolerance : Q) (validate_structure : bool) (fuel : nat)
    (gs_features : list (list RbGeom)) :
  (2 * sum_list_with (fun g => length (qgs_geom g)) (concat gs_features) + 1 <= fuel)%nat ->
  exists w' ds,
    douglas_peucker E tolerance validate_structure fuel gs_features = Ok w' /\
    pass_deletions (trace w') = ds ++ [0] /\
    Forall (fun d => 0 < d) ds /\
    nbr_pass (rb_results w') = Z.of_nat (length ds) + 1 /\
    nbr_vertice_deleted (rb_results w') = sum_Z ds /\
    1 <= nbr_pass (rb_results w') <= nbr_vertice_deleted (rb_results w') + 1 /\
    Z.of_nat (total_vertices w') + nbr_vertice_deleted (rb_results w') =
      Z.of_nat (sum_list_with (fun g => length (qgs_geom g)) (concat gs_features)).
Proof.
  intros Hfuel.
  destruct (douglas_peucker_unfold E tolerance validate_structure fuel gs_features Hfuel)
    as (w1 & evs & Hs & [Hrel (ds & Hds & Hpos) Hdel Hpass _] & Hdp).
  pose proof (rr_trace _ _ _ _ _ Hrel) as Ht.
  pose proof (rr_total _ _ _ _ _ Hrel) as Htot.
  pose proof (sum_Z_positive ds Hpos) as Hsum.
  rewrite Hds in Hdel, Hpass, Htot. rewrite sum_Z_app in Hdel, Htot.
  rewrite length_app in Hpass.
  change (sum_Z [0]) with 0 in *.
  change (trace (reduce_entry gs_features)) with (@nil Event) in Ht.
  change (nbr_vertice_deleted (rb_results (reduce_entry gs_features))) with 0 in Hdel.
  change (nbr_pass (rb_results (reduce_entry gs_features))) with 0 in Hpass.
  change (total_vertices (reduce_entry gs_features))
    with (sum_list_with (fun g => length (qgs_geom g)) (concat gs_features)) in Htot.
  change (length [0]) with 1%nat in Hpass.
  eexists. exists ds. split; [exact Hdp|].
  change (trace (set_results ?r w1)) with (trace w1).
  change (total_vertices (set_results ?r w1)) with (total_vertices w1).
  cbn [set_results rb_results nbr_pass nbr_vertice_deleted].
  rewrite Ht. cbn [app]. split; [exact Hds|]. split; [exact Hpos|].
  split; [lia|]. split; [lia|]. split; [lia|]. lia.
Qed.

Lemma douglas_peucker_statistics_witness :
  exists w',
    douglas_peucker axis_env 1%Q false 30 [[mk_geom 7 ring5]; [mk_geom 8 bend3]] = Ok w' /\
    1 <= nbr_pass (rb_results w') <= nbr_vertice_deleted (rb_results w') + 1.
Proof.
  destruct (douglas_peucker_statistics axis_env 1%Q false 30
              [[mk_geom 7 ring5]; [mk_geom 8 bend3]])
    as (w' & ds & Hdp & _ & _ & _ & _ & Hb & _).
  - vm_compute. lia.
  - exists w'. split; [exact Hdp|exact Hb].
Defined.

(** ** Further properties: geometries with no span within the tolerance *)

Section AboveTolerance.

Variable E : GeoEnv.
Variable tolerance : Q.

Lemma loop_step_untouched (k : nat) (pts : QgsLineString) (w0 : World) (ub : Z)
    (st st' : LoopState) :
  loop_inv E k pts w0 ub st -> above_tolerance E tolerance pts ->
  loop_step E tolerance k pts st = Some (Ok st') ->
  world st' = world st /\ deleted st' = deleted st.
Proof.
  intros Hinv Hoff Hstep.
  destruct st as [stk wst n]. unfold loop_step in Hstep. simpl in *.
  destruct stk as [|[first last] rest]; [discriminate|].
  pose proof Hinv as [Hchain Hub _ _ _ Hcount Hdel [g' Hg'] _ _ _ _ _ _ _].
  simpl in *. destruct Hchain as (Hf & Hl & _).
  rewrite (live_lookup wst k g' Hg') in *.
  assert (Hlast : last < Z.of_nat (length pts)) by lia.
  destruct (loop_body_cases E tolerance k pts first last rest wst n g' Hg' Hf Hlast)
    as [[_ Hb]|(Hlong & fi & fd & Hfp & _ & Hcases)].
  { rewrite Hb in Hstep. now inversion Hstep; subst. }
  assert (Hpos : Qle_bool fd tolerance = false).
  { destruct (find_farthest_point_spec E pts first last)
      as (fi' & fd' & Hfp' & _ & _ & Hmax & _); [lia..|].
    rewrite Hfp in Hfp'. inversion Hfp'; subst fi' fd'.
    destruct (Hoff first last) as (i & Hi & Hd); [lia..|].
    apply Qle_bool_false. eapply Qlt_le_trans; [exact Hd|]. now apply Hmax. }
  destruct Hcases as [[_ Hb]|[(Htol & _)|(Htol & _)]]; try congruence.
  rewrite Hb in Hstep. now inversion Hstep; subst.
Qed.

Lemma process_line_untouched (fuel : nat) (w w' : World) (k : nat) (g : RbGeom) (d : Z) :
  rb_geoms w !! k = Some g -> above_tolerance E tolerance (qgs_geom g) ->
  process_line E tolerance fuel w k = Ok (d, w') ->
  d = 0 /\ w' = set_is_simplest k true w.
Proof.
  intros Hg Hoff Hp. rewrite (process_line_entry E tolerance fuel w k g Hg) in Hp.
  apply res_bind_Ok in Hp as (st & Hw & Heq). inversion Heq; subst.
  apply while_stack_reach in Hw as [Hreach _]. clear Heq.
  assert (Hq : world st = set_is_simplest k true w /\ deleted st = 0).
  { induction Hreach as [|st1 st2 Hr IH Hstep]; [done|].
    destruct (reach_inv E tolerance k _ _ _ _ _ (entry_inv E w k g Hg) Hr) as (ub & Hinv).
    destruct (loop_step_untouched k _ _ ub st1 st2 Hinv Hoff Hstep) as [Hw' Hd].
    destruct IH. split; congruence. }
  destruct Hq. done.
Qed.

Lemma for_geoms_untouched (fuel : nat) (ks : list nat) :
  forall (w w' : World) (n n' : Z),
    Forall (above_tolerance E tolerance) (qgs_geom <$> rb_geoms w) ->
    for_geoms E tolerance fuel ks w n = Ok (n', w') ->
    n' = n /\
    qgs_geom <$> rb_geoms w' = qgs_geom <$> rb_geoms w /\
    rb_results w' = rb_results w /\
    exists evs, trace w' = trace w ++ evs /\ validator_calls evs = [].
Proof.
  induction ks as [|k ks IH]; intros w w' n n' Hoff Hfor; simpl in Hfor.
  - inversion Hfor; subst. repeat split. exists []. now rewrite app_nil_r.
  - set (wb := {| rb_geoms := rb_geoms w; rb_results := rb_results w;
                  trace := trace w; polls := S (polls w) |}) in *.
    destruct (isCanceled E (polls w)).
    { inversion Hfor; subst. repeat split. exists []. simpl. now rewrite app_nil_r. }
    apply res_bind_Ok in Hfor as (g & Hget & Hfor).
    unfold get_geom in Hget. simpl in Hget.
    destruct (rb_geoms w !! k) as [g0|] eqn:Hg; [|discriminate].
    inversion Hget; subst g0. clear Hget.
    destruct (negb (is_simplest g)).
    + apply res_bind_Ok in Hfor as ([d w1] & Hpl & Hfor).
      assert (Hoffg : above_tolerance E tolerance (qgs_geom g)).
      { rewrite Forall_forall in Hoff. apply Hoff.
        apply list_elem_of_fmap. exists g. split; [done|].
        now apply list_elem_of_lookup_2 in Hg. }
      destruct (process_line_untouched fuel (log (CallProcessLine k) wb) w1 k g d
                  Hg Hoffg Hpl) as [-> ->].
      destruct (IH _ _ _ _ (eq_ind_r (Forall (above_tolerance E tolerance)) Hoff
                  (set_is_simplest_points k true (log (CallProcessLine k) wb))) Hfor)
        as (Hn & Hpts & Hres & evs & Ht & Hv).
      destruct (set_is_simplest_fields k true (log (CallProcessLine k) wb))
        as (Hr1 & Ht1 & _).
      split; [lia|]. split; [now rewrite Hpts, set_is_simplest_points|].
      split; [now rewrite Hres, Hr1|].
      exists (CallProcessLine k :: evs). split; [|exact Hv].
      rewrite Ht, Ht1. simpl. now rewrite <- app_assoc.
    + destruct (IH wb w' n n' Hoff Hfor) as (Hn & Hpts & Hres & evs & Ht & Hv).
      repeat split; try done. now exists evs.
Qed.

Lemma simplify_passes_untouched (fuel passes : nat) (w w' : World) :
  Forall (above_tolerance E tolerance) (qgs_geom <$> rb_geoms w) ->
  simplify_passes E tolerance fuel passes w = Ok w' ->
  qgs_geom <$> rb_geoms w' = qgs_geom <$> rb_geoms w /\
  rb_results w' = add_pass (rb_results w) /\
  exists evs, trace w' = trace w ++ evs /\ validator_calls evs = [].
Proof.
  intros Hoff Hp. destruct passes as [|passes]; simpl in Hp; [discriminate|].
  apply res_bind_Ok in Hp as ([nbr w2] & Hfor & Hp).
  destruct (for_geoms_untouched fuel _
              (log (InfoIteration (nbr_pass (rb_results w) + 1))
                 (set_results (add_pass (rb_results w)) w)) _ _ _ Hoff Hfor)
    as (-> & Hpts & Hres & evs & Ht & Hv).
  simpl in Hp. inversion Hp; subst w'. simpl in *.
  split; [done|]. split; [exact Hres|].
  exists ((InfoIteration (nbr_pass (rb_results w) + 1) :: evs) ++ [InfoVerticeDeleted 0]).
  split; [rewrite Ht; simpl; now rewrite <- !app_assoc|].
  rewrite validator_calls_app.
  change (validator_calls (InfoIteration (nbr_pass (rb_results w) + 1) :: evs))
    with (validator_calls evs).
  now rewrite Hv.
Qed.

(** With a negative tolerance and distances that are never negative, every
    span of three vertices or more has a vertex farther than the tolerance
    from its chord. *)
Lemma negative_tolerance_above (pts : QgsLineString) :
  (tolerance < 0)%Q -> (forall a b p, 0 <= distance E a b p)%Q ->
  above_tolerance E tolerance pts.
Proof.
  intros Hneg Hdist f l Hf Hfl Hl. exists (f + 1). split; [lia|].
  eapply Qlt_le_trans; [exact Hneg|]. apply Hdist.
Qed.

End AboveTolerance.

(** X12.  When every span of three vertices or more of every geometry has a
    vertex farther than the tolerance from its chord, [douglas_peucker]
    returns after one pass: no span was submitted to the validator, no
    vertex was deleted, and the features returned are the features given. *)
Theorem douglas_peucker_above_tolerance
    (E : GeoEnv) (tolerance : Q) (validate_structure : bool) (fuel : nat)
    (gs_features : list (list RbGeom)) :
  Forall (above_tolerance E tolerance) (qgs_geom <$> concat gs_features) ->
  (2 * sum_list_with (fun g => length (qgs_geom g)) (concat gs_features) + 1 <= fuel)%nat ->
  exists w',
    douglas_peucker E tolerance validate_structure fuel gs_features = Ok w' /\
    validator_calls (trace w') = [] /\
    nbr_vertice_deleted (rb_results w') = 0 /\
    nbr_pass (rb_results w') = 1 /\
    qgs_features_out (rb_results w') = Some (fmap (M := list) qgs_geom <$> gs_features).
Proof.
  intros Habove Hfuel.
  destruct (douglas_peucker_unfold E tolerance validate_structure fuel gs_features Hfuel)
    as (w1 & evs' & Hs & _ & Hdp).
  destruct (simplify_passes_untouched E tolerance fuel fuel
              (reduce_entry gs_features) w1 Habove Hs)
    as (Hpts & Hres & evs & Ht & Hv).
  eexists. split; [exact Hdp|].
  change (trace (set_results ?r w1)) with (trace w1).
  cbn [set_results rb_results nbr_pass nbr_vertice_deleted qgs_features_out].
  rewrite Ht, Hres, Hpts. simpl. split; [exact Hv|]. split; [done|]. split; [done|].
  f_equal. apply regroup_concat.
Qed.

Lemma douglas_peucker_above_tolerance_witness :
  exists w',
    douglas_peucker axis_env (1 # 2)%Q false 10 [[mk_geom 7 bend3]] = Ok w' /\
    nbr_pass (rb_results w') = 1 /\
    qgs_features_out (rb_results w') = Some [[bend3]].
Proof.
  destruct (douglas_peucker_above_tolerance axis_env (1 # 2)%Q false 10 [[mk_geom 7 bend3]])
    as (w' & Hr & _ & _ & Hp & Ho).
  - repeat constructor. intros f l Hf Hfl Hl. simpl in Hl.
    assert (f = 0) by lia. assert (l = 2) by lia. subst.
    exists 1. split; [lia|]. reflexivity.
  - simpl. lia.
  - exists w'. split; [exact Hr|]. split; [exact Hp|exact Ho].
Defined.

(** X13.  With a negative tolerance, and a distance primitive that never
    answers a negative number, [douglas_peucker] deletes no vertex of any
    geometry and submits no span to the validator: the features returned
    are the features given, after one pass. *)
Theorem douglas_peucker_negative_tolerance
    (E : GeoEnv) (tolerance : Q) (validate_structure : bool) (fuel : nat)
    (gs_features : list (list RbGeom)) :
  (tolerance < 0)%Q ->
  (forall a b p, 0 <= distance E a b p)%Q ->
  (2 * sum_list_with (fun g => length (qgs_geom g)) (concat gs_features) + 1 <= fuel)%nat ->
  exists w',
    douglas_peucker E tolerance validate_structure fuel gs_features = Ok w' /\
    validator_calls (trace w') = [] /\
    nbr_vertice_deleted (rb_results w') = 0 /\
    nbr_pass (rb_results w') = 1 /\
    qgs_features_out (rb_results w') = Some (fmap (M := list) qgs_geom <$> gs_features).
Proof.
  intros Hneg Hdist Hfuel.
  assert (Habove : Forall (above_tolerance E tolerance)
                     (qgs_geom <$> rb_geoms (reduce_entry gs_features))).
  { rewrite Forall_forall. intros pts _. now apply negative_tolerance_above. }
  destruct (douglas_peucker_unfold E tolerance validate_structure fuel gs_features Hfuel)
    as (w1 & evs' & Hs & _ & Hdp).
  destruct (simplify_passes_untouched E tolerance fuel fuel
              (reduce_entry gs_features) w1 Habove Hs)
    as (Hpts & Hres & evs & Ht & Hv).
  eexists. split; [exact Hdp|].
  change (trace (set_results ?r w1)) with (trace w1).
  cbn [set_results rb_results nbr_pass nbr_vertice_deleted qgs_features_out].
  rewrite Ht, Hres, Hpts. simpl. split; [exact Hv|]. split; [done|]. split; [done|].
  f_equal. apply regroup_concat.
Qed.

Lemma axis_distance_nonneg (a b p : QgsPoint) : (0 <= axis_distance a b p)%Q.
Proof.
  unfold axis_distance. destruct a, p; try apply Qabs_nonneg; apply Qle_refl.
Qed.

Lemma douglas_peucker_negative_tolerance_witness :
  exists w',
    douglas_peucker axis_env (-1 # 1)%Q false 10 [[mk_geom 7 straight3]] = Ok w' /\
    nbr_vertice_deleted (rb_results w') = 0 /\
    qgs_features_out (rb_results w') = Some [[straight3]].
Proof.
  destruct (douglas_peucker_negative_tolerance axis_env (-1 # 1)%Q false 10
              [[mk_geom 7 straight3]])
    as (w' & Hr & _ & Hd & _ & Ho).
  - reflexivity.
  - exact axis_distance_nonneg.
  - simpl. lia.
  - exists w'. split; [exact Hr|]. split; [exact Hd|exact Ho].
Defined.
